(** * onebot.plugins.users: channel membership registry

    A shallow embedding of [onebot/plugins/users.py] (classes [User] and
    [UsersPlugin]) and the properties of its event handlers.

    Python objects are mutable and shared by reference, so [User] instances
    live in a store indexed by address; the dictionary [active_users] maps a
    nickname to the address of a [User].  Dictionaries keep insertion order,
    which the loop of [UsersPlugin.part] observes, so they are association
    lists.  The channel sets are never iterated: they are finite sets.
    An exception leaves every mutation made before it in place, so a handler
    is a function from a state to an outcome and the state it leaves. *)

From Stdlib Require Import String.
From stdpp Require Import base decidable option list strings gmap.

Local Open Scope string_scope.
#[local] Set Warnings "-clear-no-such-hyp".

(** ** Python dictionaries with insertion order *)

Module Dict.
Section Dict.
Context {V : Type}.

Definition t := list (string * V).

Definition empty : t := [].

(** [d.get(k, None)] *)
Fixpoint get (k : string) (d : t) : option V :=
match d with
| [] => None
| (k', v) :: d' => if decide (k' = k) then Some v else get k d'
end.

(** [k in d] *)
Definition contains (k : string) (d : t) : bool :=
match get k d with Some _ => true | None => false end.

(** [d[k] = v]: an existing key keeps its position, a new one goes last. *)
Fixpoint set (k : string) (v : V) (d : t) : t :=
match d with
| [] => [(k, v)]
| (k', v') :: d' =>
  if decide (k' = k) then (k, v) :: d' else (k', v') :: set k v d'
end.

(** [del d[k]], for a key that is present: no binding of [k] is left. *)
Fixpoint remove (k : string) (d : t) : t :=
match d with
| [] => []
| (k', v') :: d' =>
  if decide (k' = k) then remove k d' else (k', v') :: remove k d'
end.

Definition keys (d : t) : list string := d.*1.
End Dict.
Arguments t : clear implicits.
End Dict.

(** ** Collaborators: the settings store and the sender mask *)

(** A settings document of the [users] collection: field name to value. *)
Definition Document := list (string * string).

(** The handle [bot.get_database()] returns.  The plugin only ever calls
    [database.users.find_one({'id': key})]. *)
Record Database := { find_one_by_id : string -> option Document }.

(** [irc3.utils.IrcString]: the plugin reads the attributes [nick] and [host]
    of the masks it is handed. *)
Module IrcString.
Record t := mk { nick : string; host : string }.

(** ['{}!{}@{}'.format(nick, username, server)] read back as a mask: the
    nick is what precedes the ['!'], the host what follows it. *)
Definition format (n username server : string) : t :=
  {| nick := n; host := username ++ "@" ++ server |}.
End IrcString.

(** The part of the [irc3] bot object the plugin touches.  [config] maps a
    section name to that section's options.  Calls to [bot.log.debug] leave
    the registry alone and are left out. *)
Module Bot.
Record t := mk {
  nick : string;
  config : Dict.t (Dict.t string);
  get_database : Database
}.
End Bot.

(** ** Exceptions and outcomes *)

Inductive exn :=
| KeyError (key : string)
| ValueError (msg : string).

(** [Stuck] is not a Python outcome: it marks a dereference of an address
    with no object behind it, which well-formed states exclude. *)
Inductive result (A : Type) :=
| Ok (a : A)
| Raise (e : exn)
| Stuck.
Arguments Ok {A} a.
Arguments Raise {A} e.
Arguments Stuck {A}.

(** ** class User *)

Module User.

Record t := mk {
  nick : string;
  host : string;
  channels : gset string;
  _id : string;
  database : Database
}.

(** [User.__init__]: [channels] is always handed over as a list literal, so
    neither [ValueError] branch can be taken. *)
Definition init (mask : IrcString.t) (chans : list string) (id_ : string)
    (db : Database) : t :=
  {| nick := IrcString.nick mask;
     host := IrcString.host mask;
     channels := foldl (fun s c => s ∪ {[c]}) ∅ chans;
     _id := id_;
     database := db |}.

Definition set_nick (n : string) (u : t) : t :=
  mk n (host u) (channels u) (_id u) (database u).

Definition set_channels (cs : gset string) (u : t) : t :=
  mk (nick u) (host u) cs (_id u) (database u).

Definition get_settings (u : t) : option Document :=
  find_one_by_id (database u) (_id u).

Definition get_setting (u : t) (setting : string) (default : option string)
    : option string :=
  match get_settings u with
  | Some document =>
      match Dict.get setting document with
      | Some v => Some v
      | None => default
      end
  | None => default
  end.

(** [self.channels.add(channel)] *)
Definition join (channel : string) (u : t) : t :=
  set_channels (channels u ∪ {[channel]}) u.

(** [self.channels.remove(channel)]: [KeyError] when absent. *)
Definition part (channel : string) (u : t) : result t :=
  if decide (channel ∈ channels u)
  then Ok (set_channels (channels u ∖ {[channel]}) u)
  else Raise (KeyError channel).

Definition still_in_channels (u : t) : bool :=
  bool_decide (0 < size (channels u)).

Definition getid (u : t) : string := _id u.

(** The [mask] property: ['{}!{}'.format(self.nick, self.host)] as a mask. *)
Definition mask (u : t) : IrcString.t :=
  {| IrcString.nick := nick u; IrcString.host := host u |}.


End User.

(** ** class UsersPlugin *)

Module UsersPlugin.

Definition addr := nat.

(** The plugin's attributes, and [objects], the store of the [User]
    instances created so far (an address is an index into it). *)
Record t := mk {
  bot : Bot.t;
  identifying_method : string;
  channels : gset string;
  active_users : Dict.t addr;
  objects : list User.t
}.

Definition set_channels (cs : gset string) (s : t) : t :=
  mk (bot s) (identifying_method s) cs (active_users s) (objects s).
Definition set_active_users (d : Dict.t addr) (s : t) : t :=
  mk (bot s) (identifying_method s) (channels s) d (objects s).
Definition set_objects (h : list User.t) (s : t) : t :=
  mk (bot s) (identifying_method s) (channels s) (active_users s) h.

(** *** Handlers as state transformers that may raise *)

Definition M (A : Type) : Type := t -> result A * t.

Definition ret {A} (a : A) : M A := fun s => (Ok a, s).
Definition raise {A} (e : exn) : M A := fun s => (Raise e, s).
Definition bind {A B} (m : M A) (k : A -> M B) : M B :=
  fun s =>
    match m s with
    | (Ok a, s') => k a s'
    | (Raise e, s') => (Raise e, s')
    | (Stuck, s') => (Stuck, s')
    end.
Definition gets {A} (f : t -> A) : M A := fun s => (Ok (f s), s).
Definition modify (f : t -> t) : M unit := fun s => (Ok tt, f s).

#[local] Notation "x <- m ;; k" := (bind m (fun x => k))
  (at level 100, m at next level, right associativity, only parsing).
#[local] Notation "m ;;; k" := (bind m (fun _ => k))
  (at level 100, right associativity, only parsing).

(** The state an outcome leaves behind, and the outcome itself. *)
Definition exec {A} (m : M A) (s : t) : t := snd (m s).
Definition outcome {A} (m : M A) (s : t) : result A := fst (m s).

(** [for x in l: body(x)] *)
Fixpoint for_each {A} (l : list A) (body : A -> M unit) : M unit :=
  match l with
  | [] => ret tt
  | x :: l' => body x ;;; for_each l' body
  end.

(** Reading and writing the object behind a reference. *)
Definition deref (a : addr) : M User.t :=
  fun s => match objects s !! a with
           | Some u => (Ok u, s)
           | None => (Stuck, s)
           end.

Definition assign (a : addr) (u : User.t) : M unit :=
  fun s => match objects s !! a with
           | Some _ => (Ok tt, set_objects (<[a:=u]> (objects s)) s)
           | None => (Stuck, s)
           end.

Definition alloc (u : User.t) : M addr :=
  fun s => (Ok (length (objects s)), set_objects (objects s ++ [u])%list s).

(** Method calls and attribute writes through a reference to a [User]. *)
Definition user_join (a : addr) (channel : string) : M unit :=
  u <- deref a ;; assign a (User.join channel u).

Definition user_part (a : addr) (channel : string) : M unit :=
  u <- deref a ;;
  match User.part channel u with
  | Ok u' => assign a u'
  | Raise e => raise e
  | Stuck => fun s => (Stuck, s)
  end.

Definition user_still_in_channels (a : addr) : M bool :=
  u <- deref a ;; ret (User.still_in_channels u).

Definition user_set_nick (a : addr) (n : string) : M unit :=
  u <- deref a ;; assign a (User.set_nick n u).

(** [self.active_users[k]], [self.active_users[k] = a],
    [del self.active_users[k]], [self.channels.add(c)],
    [self.channels.remove(c)] *)
Definition active_users_getitem (k : string) : M addr :=
  fun s => match Dict.get k (active_users s) with
           | Some a => (Ok a, s)
           | None => (Raise (KeyError k), s)
           end.

Definition active_users_setitem (k : string) (a : addr) : M unit :=
  modify (fun s => set_active_users (Dict.set k a (active_users s)) s).

Definition active_users_delitem (k : string) : M unit :=
  fun s => if Dict.contains k (active_users s)
           then (Ok tt, set_active_users (Dict.remove k (active_users s)) s)
           else (Raise (KeyError k), s).

Definition channels_add (c : string) : M unit :=
  modify (fun s => set_channels (channels s ∪ {[c]}) s).

Definition channels_remove (c : string) : M unit :=
  fun s => if decide (c ∈ channels s)
           then (Ok tt, set_channels (channels s ∖ {[c]}) s)
           else (Raise (KeyError c), s).

(** *** The methods of the class *)

(** [__name__] of the module, the plugin's configuration section. *)
Definition __name__ : string := "onebot.plugins.users".

Definition connection_lost : M unit :=
  modify (set_channels ∅) ;;;
  modify (set_active_users Dict.empty).

Definition init (b : Bot.t) : result t :=
  let config := default Dict.empty (Dict.get __name__ (Bot.config b)) in
  let self :=
    {| bot := b;
       identifying_method := default "mask" (Dict.get "identify_by" config);
       channels := ∅;
       active_users := Dict.empty;
       objects := [] |} in
  match connection_lost self with
  | (Ok _, self') => Ok self'
  | (Raise e, _) => Raise e
  | (Stuck, _) => Stuck
  end.

Definition get_user (n : string) (s : t) : option addr :=
  Dict.get n (active_users s).

Definition create_user (mask : IrcString.t) (chans : list string) : M addr :=
  method <- gets identifying_method ;;
  if decide (method = "mask") then
    db <- gets (fun s => Bot.get_database (bot s)) ;;
    alloc (User.init mask chans (IrcString.host mask) db)
  else
    raise (ValueError "A valid identifying method should be configured").

Definition on_new_nick (nick : IrcString.t) (new_nick : string) : M unit :=
  known <- gets (fun s => Dict.contains (IrcString.nick nick) (active_users s)) ;;
  if known : bool then
    user <- active_users_getitem (IrcString.nick nick) ;;
    user_set_nick user new_nick ;;;
    active_users_setitem new_nick user ;;;
    active_users_delitem (IrcString.nick nick)
  else ret tt.

Definition on_privmsg (mask : IrcString.t) (target : string) : M unit :=
  tracked <- gets (fun s => bool_decide (target ∈ channels s)) ;;
  if negb tracked then ret tt
  else
    known <- gets (fun s => Dict.contains (IrcString.nick mask) (active_users s)) ;;
    if negb known then
      user <- create_user mask [target] ;;
      active_users_setitem (IrcString.nick mask) user
    else
      user <- active_users_getitem (IrcString.nick mask) ;;
      user_join user target.

Definition join (nick : string) (mask : IrcString.t) (channel : string)
    : M unit :=
  channels_add channel ;;;
  known <- gets (fun s => Dict.contains nick (active_users s)) ;;
  (if negb known then
     user <- create_user mask [channel] ;;
     active_users_setitem nick user
   else ret tt) ;;;
  user <- active_users_getitem nick ;;
  user_join user channel.

Definition quit (nick : string) (mask : IrcString.t) : M unit :=
  own <- gets (fun s => bool_decide (nick = Bot.nick (bot s))) ;;
  (if own : bool then connection_lost else ret tt) ;;;
  known <- gets (fun s => Dict.contains nick (active_users s)) ;;
  if known : bool then active_users_delitem nick else ret tt.

Definition part (nick : string) (mask : IrcString.t) (channel : string)
    : M unit :=
  own <- gets (fun s => bool_decide (nick = Bot.nick (bot s))) ;;
  (if own : bool then
     items <- gets active_users ;;
     for_each items (fun '(n, user) =>
       user_part user channel ;;;
       still <- user_still_in_channels user ;;
       (if negb still then active_users_delitem n else ret tt) ;;;
       channels_remove channel)
   else ret tt) ;;;
  known <- gets (fun s => Dict.contains nick (active_users s)) ;;
  if negb known then ret tt
  else
    user <- active_users_getitem nick ;;
    user_part user channel ;;;
    user' <- active_users_getitem nick ;;
    still <- user_still_in_channels user' ;;
    if negb still then active_users_delitem nick else ret tt.

Definition on_who (channel nick username server : string) : M unit :=
  tracked <- gets (fun s => bool_decide (channel ∈ channels s)) ;;
  if negb tracked then ret tt
  else
    known <- gets (fun s => Dict.contains nick (active_users s)) ;;
    if negb known then
      user <- create_user (IrcString.format nick username server) [channel] ;;
      active_users_setitem nick user
    else
      user <- active_users_getitem nick ;;
      user_join user channel.

(** [on_join_part_quit] looks the method up by the lower-cased event name. *)
Inductive jpq := JOIN | PART | QUIT.

Definition on_join_part_quit (mask : IrcString.t) (event : jpq)
    (channel : string) : M unit :=
  match event with
  | JOIN => join (IrcString.nick mask) mask channel
  | PART => part (IrcString.nick mask) mask channel
  | QUIT => quit (IrcString.nick mask) mask
  end.

Definition on_kick (mask target : IrcString.t) (channel : string) : M unit :=
  part (IrcString.nick target) target channel.

End UsersPlugin.

(** ** The event stream *)

(** One constructor per entry point the [irc3] event loop calls. *)
Inductive event :=
| JoinPartQuit (mask : IrcString.t) (ev : UsersPlugin.jpq) (channel : string)
| Kick (mask target : IrcString.t) (channel : string)
| NewNick (nick : IrcString.t) (new_nick : string)
| Privmsg (mask : IrcString.t) (target : string)
| WhoReply (channel nick username server : string)
| ConnectionLost.

Definition handle (e : event) : UsersPlugin.M unit :=
  match e with
  | JoinPartQuit mask ev channel => UsersPlugin.on_join_part_quit mask ev channel
  | Kick mask target channel => UsersPlugin.on_kick mask target channel
  | NewNick nick new_nick => UsersPlugin.on_new_nick nick new_nick
  | Privmsg mask target => UsersPlugin.on_privmsg mask target
  | WhoReply channel nick username server =>
      UsersPlugin.on_who channel nick username server
  | ConnectionLost => UsersPlugin.connection_lost
  end.

(** Events are handled one after the other; a handler that raises is logged
    by the event loop and the next event finds the state as it was left. *)
Fixpoint run (evs : list event) (s : UsersPlugin.t) : UsersPlugin.t :=
  match evs with
  | [] => s
  | e :: evs' => run evs' (UsersPlugin.exec (handle e) s)
  end.

Fixpoint outcomes (evs : list event) (s : UsersPlugin.t)
    : list (result unit) :=
  match evs with
  | [] => []
  | e :: evs' =>
      UsersPlugin.outcome (handle e) s
      :: outcomes evs' (UsersPlugin.exec (handle e) s)
  end.

Inductive reachable (b : Bot.t) : UsersPlugin.t -> Prop :=
| reachable_init s : UsersPlugin.init b = Ok s -> reachable b s
| reachable_step s e :
    reachable b s -> reachable b (UsersPlugin.exec (handle e) s).

(** ** State predicates *)

(** [n] is tracked, by the object at [a], whose value is [u]. *)
Definition tracked (s : UsersPlugin.t) (n : string) (a : UsersPlugin.addr)
    (u : User.t) : Prop :=
  UsersPlugin.get_user n s = Some a /\ UsersPlugin.objects s !! a = Some u.

(** Every channel of a tracked user is a channel the bot is in. *)
Definition channel_containment (s : UsersPlugin.t) : Prop :=
  forall n a u, tracked s n a u -> User.channels u ⊆ UsersPlugin.channels s.

(** What Python guarantees of the representation, and the plugin of its
    dictionary: keys are unique, no two nicknames lead to one object, and
    every reference leads to an object. *)
Record wf (s : UsersPlugin.t) : Prop := {
  wf_keys : NoDup (Dict.keys (UsersPlugin.active_users s));
  wf_alias : forall n1 n2 a,
    UsersPlugin.get_user n1 s = Some a -> UsersPlugin.get_user n2 s = Some a ->
    n1 = n2;
  wf_valid : forall n a,
    UsersPlugin.get_user n s = Some a -> is_Some (UsersPlugin.objects s !! a)
}.

(** The body of the loop of [part], one turn per tracked user, and what
    follows the loop. *)
Definition part_loop_body (channel : string)
    : string * UsersPlugin.addr -> UsersPlugin.M unit :=
  fun '(n, user) =>
    UsersPlugin.bind (UsersPlugin.user_part user channel) (fun _ =>
    UsersPlugin.bind (UsersPlugin.user_still_in_channels user) (fun still =>
    UsersPlugin.bind
      (if negb still then UsersPlugin.active_users_delitem n
       else UsersPlugin.ret tt) (fun _ =>
    UsersPlugin.channels_remove channel))).

Definition part_tail (nick channel : string) : UsersPlugin.M unit :=
  UsersPlugin.bind
    (UsersPlugin.gets
       (fun s => Dict.contains nick (UsersPlugin.active_users s)))
    (fun known =>
       if negb known then UsersPlugin.ret tt
       else
         UsersPlugin.bind (UsersPlugin.active_users_getitem nick) (fun user =>
         UsersPlugin.bind (UsersPlugin.user_part user channel) (fun _ =>
         UsersPlugin.bind (UsersPlugin.active_users_getitem nick) (fun user' =>
         UsersPlugin.bind (UsersPlugin.user_still_in_channels user')
           (fun still =>
              if negb still then UsersPlugin.active_users_delitem nick
              else UsersPlugin.ret tt))))).

(** A user's record after leaving [c], and the state once the object at [a]
    holds it and, if left with no channel, [n] is deleted. *)
Definition parted (c : string) (u : User.t) : User.t :=
  User.set_channels (User.channels u ∖ {[c]}) u.

Definition after_user_part (n : string) (a : UsersPlugin.addr) (u : User.t)
    (c : string) (s : UsersPlugin.t) : UsersPlugin.t :=
  let s1 :=
    UsersPlugin.set_objects (<[a:=parted c u]> (UsersPlugin.objects s)) s in
  if User.still_in_channels (parted c u) then s1
  else UsersPlugin.set_active_users
         (Dict.remove n (UsersPlugin.active_users s1)) s1.

(** ** Sample data *)

Definition no_settings : Database := {| find_one_by_id := fun _ => None |}.

Definition sample_bot : Bot.t :=
  {| Bot.nick := "onebot"; Bot.config := []; Bot.get_database := no_settings |}.

(** A bot configured with an identification strategy the plugin lacks. *)
Definition misconfigured_bot : Bot.t :=
  {| Bot.nick := "onebot";
     Bot.config := [(UsersPlugin.__name__, [("identify_by", "nickserv")])];
     Bot.get_database := no_settings |}.

Definition mask_of (n : string) : IrcString.t :=
  {| IrcString.nick := n; IrcString.host := "~" ++ n ++ "@example.org" |}.

Definition sample_user (n : string) (chans : list string) : User.t :=
  User.init (mask_of n) chans (IrcString.host (mask_of n)) no_settings.

(** [u1] in [{#a}] and [u2] in [{#a, #b}], seen in either order. *)
Definition cascade_state (u1_first : bool) : UsersPlugin.t :=
  {| UsersPlugin.bot := sample_bot;
     UsersPlugin.identifying_method := "mask";
     UsersPlugin.channels := {[ "#a"; "#b" ]};
     UsersPlugin.active_users :=
       if u1_first then [("u1", 0); ("u2", 1)] else [("u2", 1); ("u1", 0)];
     UsersPlugin.objects :=
       [sample_user "u1" ["#a"]; sample_user "u2" ["#a"; "#b"]] |}.

(** The bot and two others join [#a]; then the bot leaves. *)
Definition bot_leaves_busy_channel : list event :=
  [ JoinPartQuit (mask_of "onebot") UsersPlugin.JOIN "#a";
    JoinPartQuit (mask_of "x") UsersPlugin.JOIN "#a";
    JoinPartQuit (mask_of "y") UsersPlugin.JOIN "#a";
    JoinPartQuit (mask_of "onebot") UsersPlugin.PART "#a" ].

Definition initial_state (b : Bot.t) : UsersPlugin.t :=
  {| UsersPlugin.bot := b;
     UsersPlugin.identifying_method :=
       default "mask"
         (Dict.get "identify_by"
            (default Dict.empty (Dict.get UsersPlugin.__name__ (Bot.config b))));
     UsersPlugin.channels := ∅;
     UsersPlugin.active_users := [];
     UsersPlugin.objects := [] |}.

(** The state [connection_lost] leaves: no channel, no user. *)
Definition reset_state (s : UsersPlugin.t) : UsersPlugin.t :=
  UsersPlugin.set_active_users Dict.empty (UsersPlugin.set_channels ∅ s).

(** PART and KICK events and WHO replies. *)
Definition is_part_or_who (e : event) : bool :=
  match e with
  | JoinPartQuit _ UsersPlugin.PART _ | Kick _ _ _ | WhoReply _ _ _ _ => true
  | _ => false
  end.

(** The message of the [ValueError] that [create_user] raises. *)
Definition misconfigured_msg : string :=
  "A valid identifying method should be configured".

(** A handler leaves an observation [f] of the state alone, whatever its
    outcome. *)
Definition keeps {A X} (f : UsersPlugin.t -> X) (m : UsersPlugin.M A) : Prop :=
  forall s, f (m s).2 = f s.

(** The configuration a state carries: the bot and the strategy name. *)
Definition configuration (s : UsersPlugin.t) : Bot.t * string :=
  (UsersPlugin.bot s, UsersPlugin.identifying_method s).

(** During the loop of [part]: the items of the snapshot that are still to
    be visited are bindings of the dictionary as it is now. *)
Definition pending (items : Dict.t UsersPlugin.addr) (s : UsersPlugin.t)
    : Prop :=
  wf s /\ NoDup (Dict.keys items) /\
  forall k v, (k, v) ∈ items -> UsersPlugin.get_user k s = Some v.

(** The event is the bot's own departure from a channel. *)
Definition own_part (e : event) (s : UsersPlugin.t) : Prop :=
  match e with
  | JoinPartQuit mask UsersPlugin.PART _ =>
      IrcString.nick mask = Bot.nick (UsersPlugin.bot s)
  | Kick _ target _ => IrcString.nick target = Bot.nick (UsersPlugin.bot s)
  | _ => False
  end.

(** States reached through handlers that all returned normally. *)
Inductive reachable_quietly (b : Bot.t) : UsersPlugin.t -> Prop :=
| quietly_init s : UsersPlugin.init b = Ok s -> reachable_quietly b s
| quietly_step s e :
    reachable_quietly b s ->
    UsersPlugin.outcome (handle e) s = Ok tt ->
    reachable_quietly b (UsersPlugin.exec (handle e) s).

(** A property of key and record that holds of every tracked user. *)
Definition every_tracked (R : string -> User.t -> Prop) (s : UsersPlugin.t)
    : Prop :=
  forall n a u, tracked s n a u -> R n u.

(** A handler never adds to the tracked channels. *)
Definition shrinks_channels {A} (m : UsersPlugin.M A) : Prop :=
  forall s, UsersPlugin.channels (m s).2 ⊆ UsersPlugin.channels s.

(** The event is a join. *)
Definition is_join (e : event) : bool :=
  match e with
  | JoinPartQuit _ UsersPlugin.JOIN _ => true
  | _ => false
  end.

(** The channel an event adds to the tracked ones, if any. *)
Definition joined_channel (e : event) : gset string :=
  match e with
  | JoinPartQuit _ UsersPlugin.JOIN c => {[c]}
  | _ => ∅
  end.

(** The event resets the registry or is the bot's own departure. *)
Definition drops_channels (e : event) (s : UsersPlugin.t) : Prop :=
  match e with
  | ConnectionLost => True
  | JoinPartQuit mask UsersPlugin.QUIT _ =>
      IrcString.nick mask = Bot.nick (UsersPlugin.bot s)
  | _ => own_part e s
  end.

(** A registry the events build: [alice] in [#a], [bob] in [#a] and [#b]. *)
Definition alice_and_bob : UsersPlugin.t :=
  run [ JoinPartQuit (mask_of "alice") UsersPlugin.JOIN "#a";
        JoinPartQuit (mask_of "bob") UsersPlugin.JOIN "#a";
        JoinPartQuit (mask_of "bob") UsersPlugin.JOIN "#b" ]
      (initial_state sample_bot).

Definition alice_record : User.t :=
  User.join "#a" (sample_user "alice" ["#a"]).

Definition bob_record : User.t :=
  User.join "#b" (User.join "#a" (sample_user "bob" ["#a"])).

(** * Properties *)

(** ** Dictionary laws *)

Section DictLaws.
Context {V : Type}.
Implicit Types (d : Dict.t V) (k : string) (v : V).

Lemma dict_get_set_eq d k v : Dict.get k (Dict.set k v d) = Some v.
Proof.
  induction d as [|[k' v'] d IH]; simpl.
  - by rewrite decide_True.
  - destruct (decide (k' = k)) as [->|Hne]; simpl.
    + by rewrite decide_True.
    + by rewrite decide_False.
Qed.

Lemma dict_get_set_ne d k k' v :
  k <> k' -> Dict.get k' (Dict.set k v d) = Dict.get k' d.
Proof.
  intros Hne. induction d as [|[k0 v0] d IH]; simpl.
  - by rewrite decide_False.
  - destruct (decide (k0 = k)) as [->|Hne0]; simpl.
    + by rewrite !decide_False.
    + destruct (decide (k0 = k')); [done | apply IH].
Qed.

Lemma dict_get_remove_eq d k : Dict.get k (Dict.remove k d) = None.
Proof.
  induction d as [|[k' v'] d IH]; simpl; [done|].
  destruct (decide (k' = k)); simpl; [done|]. by rewrite decide_False.
Qed.

Lemma dict_get_remove_ne d k k' :
  k <> k' -> Dict.get k' (Dict.remove k d) = Dict.get k' d.
Proof.
  intros Hne. induction d as [|[k0 v0] d IH]; simpl; [done|].
  destruct (decide (k0 = k)) as [->|Hne0]; simpl.
  - by rewrite decide_False.
  - destruct (decide (k0 = k')); [done | apply IH].
Qed.

Lemma dict_contains_get d k v : Dict.get k d = Some v -> Dict.contains k d = true.
Proof. unfold Dict.contains. by intros ->. Qed.

Lemma dict_contains_false d k : Dict.get k d = None -> Dict.contains k d = false.
Proof. unfold Dict.contains. by intros ->. Qed.

Lemma dict_get_elem_of d k v : Dict.get k d = Some v -> (k, v) ∈ d.
Proof.
  induction d as [|[k' v'] d IH]; simpl; [done|].
  destruct (decide (k' = k)) as [->|Hne].
  - intros [= ->]. apply list_elem_of_here.
  - intros H. apply list_elem_of_further. by apply IH.
Qed.

Lemma dict_get_None_keys d k : Dict.get k d = None <-> k ∉ Dict.keys d.
Proof.
  unfold Dict.keys. induction d as [|[k' v'] d IH]; simpl.
  - split; [intros _; apply not_elem_of_nil | done].
  - rewrite not_elem_of_cons. destruct (decide (k' = k)) as [->|Hne].
    + split; [done | intros [? _]; done].
    + rewrite IH. split; [intros ?; split; [congruence | done] | by intros [_ ?]].
Qed.

Lemma dict_elem_of_get d k v :
  NoDup (Dict.keys d) -> (k, v) ∈ d -> Dict.get k d = Some v.
Proof.
  unfold Dict.keys. induction d as [|[k' v'] d IH]; simpl.
  - intros _ H. by apply elem_of_nil in H.
  - intros Hnd Hin. apply NoDup_cons in Hnd as [Hk' Hnd].
    apply elem_of_cons in Hin as [[= -> ->]|Hin].
    + by rewrite decide_True.
    + rewrite decide_False; [by apply IH|].
      intros ->. apply Hk'. apply list_elem_of_fmap. by exists (k, v).
Qed.
End DictLaws.

(** Deciding membership of a channel set by evaluation. *)
Lemma channel_absent (c : string) (cs : gset string) :
  bool_decide (c ∈ cs) = false -> c ∉ cs.
Proof. apply bool_decide_eq_false_1. Qed.

Lemma channel_present (c : string) (cs : gset string) :
  bool_decide (c ∈ cs) = true -> c ∈ cs.
Proof. apply bool_decide_eq_true_1. Qed.

(** ** Stepping through a handler *)

Section Monad.
Import UsersPlugin.

Lemma bind_ok {A B} (m : M A) (k : A -> M B) s a s' :
  m s = (Ok a, s') -> bind m k s = k a s'.
Proof. unfold bind. by intros ->. Qed.

Lemma bind_raise {A B} (m : M A) (k : A -> M B) s e s' :
  m s = (Raise e, s') -> bind m k s = (Raise e, s').
Proof. unfold bind. by intros ->. Qed.

Lemma deref_ok s a u : objects s !! a = Some u -> deref a s = (Ok u, s).
Proof. unfold deref. by intros ->. Qed.

Lemma assign_ok s a u u' :
  objects s !! a = Some u ->
  assign a u' s = (Ok tt, set_objects (<[a:=u']> (objects s)) s).
Proof. unfold assign. by intros ->. Qed.

Lemma getitem_ok s k a :
  Dict.get k (active_users s) = Some a -> active_users_getitem k s = (Ok a, s).
Proof. unfold active_users_getitem. by intros ->. Qed.

Lemma delitem_ok s k :
  Dict.contains k (active_users s) = true ->
  active_users_delitem k s
  = (Ok tt, set_active_users (Dict.remove k (active_users s)) s).
Proof. unfold active_users_delitem. by intros ->. Qed.

Lemma user_join_ok s a u c :
  objects s !! a = Some u ->
  user_join a c s = (Ok tt, set_objects (<[a:=User.join c u]> (objects s)) s).
Proof.
  intros H. unfold user_join.
  rewrite (bind_ok _ _ _ _ _ (deref_ok _ _ _ H)). by apply assign_ok with u.
Qed.

Lemma user_set_nick_ok s a u n :
  objects s !! a = Some u ->
  user_set_nick a n s
  = (Ok tt, set_objects (<[a:=User.set_nick n u]> (objects s)) s).
Proof.
  intros H. unfold user_set_nick.
  rewrite (bind_ok _ _ _ _ _ (deref_ok _ _ _ H)). by apply assign_ok with u.
Qed.

Lemma user_part_ok s a u c :
  objects s !! a = Some u -> c ∈ User.channels u ->
  user_part a c s
  = (Ok tt,
     set_objects
       (<[a:=User.set_channels (User.channels u ∖ {[c]}) u]> (objects s)) s).
Proof.
  intros H Hc. unfold user_part.
  rewrite (bind_ok _ _ _ _ _ (deref_ok _ _ _ H)).
  unfold User.part. rewrite decide_True by done. by apply assign_ok with u.
Qed.

Lemma user_part_raise s a u c :
  objects s !! a = Some u -> c ∉ User.channels u ->
  user_part a c s = (Raise (KeyError c), s).
Proof.
  intros H Hc. unfold user_part.
  rewrite (bind_ok _ _ _ _ _ (deref_ok _ _ _ H)).
  unfold User.part. by rewrite decide_False.
Qed.

Lemma user_still_in_channels_ok s a u :
  objects s !! a = Some u ->
  user_still_in_channels a s = (Ok (User.still_in_channels u), s).
Proof.
  intros H. unfold user_still_in_channels.
  by rewrite (bind_ok _ _ _ _ _ (deref_ok _ _ _ H)).
Qed.

(** What [on_new_nick] does to a tracked nickname. *)
Lemma on_new_nick_tracked s nick new_nick a u :
  tracked s (IrcString.nick nick) a u ->
  on_new_nick nick new_nick s
  = (Ok tt,
     set_active_users
       (Dict.remove (IrcString.nick nick)
          (Dict.set new_nick a (active_users s)))
       (set_objects (<[a:=User.set_nick new_nick u]> (objects s)) s)).
Proof.
  intros [Hget Hobj]. unfold get_user in Hget.
  unfold on_new_nick, bind at 1, gets.
  rewrite (dict_contains_get _ _ _ Hget).
  rewrite (bind_ok _ _ _ _ _ (getitem_ok _ _ _ Hget)).
  rewrite (bind_ok _ _ _ _ _ (user_set_nick_ok _ _ _ new_nick Hobj)).
  unfold bind, active_users_setitem, modify, active_users_delitem. simpl.
  destruct (decide (new_nick = IrcString.nick nick)) as [->|Hne].
  - by rewrite (dict_contains_get _ _ a) by apply dict_get_set_eq.
  - rewrite (dict_contains_get _ _ a); [done|].
    by rewrite dict_get_set_ne.
Qed.
End Monad.

(** ** Rename *)

(** C10. Renaming a tracked nickname to itself drops it: the record is
    stored under the new key and the old key, the same one, is then deleted,
    so [get_user] finds nothing afterwards. *)
Theorem rename_to_same_nick_forgets_user
    (s : UsersPlugin.t) (nick : IrcString.t) (a : UsersPlugin.addr) (u : User.t) :
  tracked s (IrcString.nick nick) a u ->
  let n := IrcString.nick nick in
  UsersPlugin.outcome (UsersPlugin.on_new_nick nick n) s = Ok tt /\
  UsersPlugin.get_user n (UsersPlugin.exec (UsersPlugin.on_new_nick nick n) s)
  = None.
Proof.
  intros H n. unfold UsersPlugin.outcome, UsersPlugin.exec.
  rewrite (on_new_nick_tracked _ _ _ _ _ H). simpl. split; [done|].
  unfold UsersPlugin.get_user. simpl. apply dict_get_remove_eq.
Qed.

Lemma rename_to_same_nick_forgets_user_witness :
  tracked (cascade_state true) "u1" 0 (sample_user "u1" ["#a"]) /\
  UsersPlugin.get_user "u1"
    (UsersPlugin.exec (UsersPlugin.on_new_nick (mask_of "u1") "u1")
       (cascade_state true)) = None.
Proof.
  assert (H : tracked (cascade_state true) (IrcString.nick (mask_of "u1")) 0
                (sample_user "u1" ["#a"])) by (split; reflexivity).
  split; [exact H|].
  exact (proj2 (rename_to_same_nick_forgets_user _ (mask_of "u1") _ _ H)).
Defined.

(** C4. Renaming a tracked nickname to one that is not tracked re-keys the
    dictionary: the new nickname leads to the very object the old one led
    to, whose identity key, settings store and channels are untouched (so
    every settings lookup answers as before) and whose nick reads as the new
    one; the old nickname is no longer found. *)
Theorem rename_keeps_identity
    (s : UsersPlugin.t) (nick : IrcString.t) (new_nick : string)
    (a : UsersPlugin.addr) (u : User.t) :
  tracked s (IrcString.nick nick) a u ->
  UsersPlugin.get_user new_nick s = None ->
  let s' := UsersPlugin.exec (UsersPlugin.on_new_nick nick new_nick) s in
  UsersPlugin.outcome (UsersPlugin.on_new_nick nick new_nick) s = Ok tt /\
  (exists u', tracked s' new_nick a u' /\
     User.nick u' = new_nick /\
     User.getid u' = User.getid u /\
     User.get_settings u' = User.get_settings u /\
     (forall setting default,
        User.get_setting u' setting default = User.get_setting u setting default) /\
     User.host u' = User.host u /\
     User.channels u' = User.channels u) /\
  UsersPlugin.get_user (IrcString.nick nick) s' = None.
Proof.
  intros H Hnew s'. subst s'. unfold UsersPlugin.outcome, UsersPlugin.exec.
  rewrite (on_new_nick_tracked _ _ _ _ _ H). simpl.
  destruct H as [Hget Hobj]. unfold UsersPlugin.get_user in *. simpl.
  assert (Hne : IrcString.nick nick <> new_nick) by congruence.
  split; [done|]. split.
  - exists (User.set_nick new_nick u). split; [split|done]; simpl.
    + unfold UsersPlugin.get_user. simpl.
      rewrite dict_get_remove_ne by done. apply dict_get_set_eq.
    + apply list_lookup_insert_eq. by apply lookup_lt_Some with u.
  - apply dict_get_remove_eq.
Qed.

Lemma rename_keeps_identity_witness :
  tracked (cascade_state true) "u1" 0 (sample_user "u1" ["#a"]) /\
  UsersPlugin.get_user "bob" (cascade_state true) = None /\
  UsersPlugin.get_user "u1"
    (UsersPlugin.exec (UsersPlugin.on_new_nick (mask_of "u1") "bob")
       (cascade_state true)) = None.
Proof.
  assert (H : tracked (cascade_state true) (IrcString.nick (mask_of "u1")) 0
                (sample_user "u1" ["#a"])) by (split; reflexivity).
  assert (H' : UsersPlugin.get_user "bob" (cascade_state true) = None)
    by reflexivity.
  split; [exact H|]. split; [exact H'|].
  exact (proj2 (proj2
    (rename_keeps_identity _ (mask_of "u1") "bob" _ _ H H'))).
Defined.

(** ** WHO replies *)

Lemma on_who_absent_channel
    (s : UsersPlugin.t) (channel nick username server : string) :
  channel ∉ UsersPlugin.channels s ->
  UsersPlugin.on_who channel nick username server s = (Ok tt, s).
Proof.
  intros Hc. unfold UsersPlugin.on_who, UsersPlugin.bind, UsersPlugin.gets.
  by rewrite bool_decide_eq_false_2.
Qed.

(** C6. A WHO reply for a channel the bot is not in returns at once: the
    state after it is the state before it, so no nickname gains a record and
    no record gains the channel. *)
Theorem on_who_untracked_channel_ignored
    (s : UsersPlugin.t) (channel nick username server : string) :
  channel ∉ UsersPlugin.channels s ->
  UsersPlugin.on_who channel nick username server s = (Ok tt, s) /\
  (forall n,
     UsersPlugin.get_user n
       (UsersPlugin.exec (UsersPlugin.on_who channel nick username server) s)
     = UsersPlugin.get_user n s) /\
  UsersPlugin.objects
    (UsersPlugin.exec (UsersPlugin.on_who channel nick username server) s)
  = UsersPlugin.objects s.
Proof.
  intros Hc. unfold UsersPlugin.exec.
  by rewrite (on_who_absent_channel _ _ nick username server Hc).
Qed.

Lemma on_who_untracked_channel_ignored_witness :
  ("#c" ∉ UsersPlugin.channels (cascade_state true)) /\
  UsersPlugin.on_who "#c" "carol" "u" "host" (cascade_state true)
  = (Ok tt, cascade_state true).
Proof.
  assert (H : "#c" ∉ UsersPlugin.channels (cascade_state true))
    by (apply channel_absent; reflexivity).
  split; [exact H|].
  exact (proj1 (on_who_untracked_channel_ignored _ "#c" "carol" "u" "host" H)).
Defined.

(** ** Kick *)

(** C9. A kick is handled by calling [part] for the kicked target: outcome
    and state are those of [part], and those of the PART event of the
    target itself; whoever did the kicking plays no role. *)
Theorem kick_is_part
    (s : UsersPlugin.t) (kicker target : IrcString.t) (channel : string) :
  UsersPlugin.on_kick kicker target channel s
  = UsersPlugin.part (IrcString.nick target) target channel s /\
  handle (Kick kicker target channel) s
  = handle (JoinPartQuit target UsersPlugin.PART channel) s /\
  forall kicker', UsersPlugin.on_kick kicker' target channel s
                  = UsersPlugin.on_kick kicker target channel s.
Proof. repeat split. Qed.

(** ** Join *)

Section Join.
Import UsersPlugin.

Lemma join_tracked s n mask c a u :
  tracked s n a u ->
  join n mask c s
  = (Ok tt,
     set_objects (<[a:=User.join c u]> (objects s))
       (set_channels (channels s ∪ {[c]}) s)).
Proof.
  intros [Hget Hobj]. unfold get_user in Hget.
  unfold join, bind at 1, channels_add, modify.
  unfold bind at 1, gets. simpl. rewrite (dict_contains_get _ _ _ Hget). simpl.
  unfold bind at 1, ret.
  erewrite bind_ok; [|by apply getitem_ok].
  by erewrite user_join_ok.
Qed.

Lemma insert_last {A} (l : list A) (x y : A) :
  <[length l:=x]> (l ++ [y])%list = (l ++ [x])%list.
Proof. induction l as [|z l IH]; simpl; [done | by rewrite IH]. Qed.

Lemma join_untracked s n mask c :
  get_user n s = None -> identifying_method s = "mask" ->
  join n mask c s
  = (Ok tt,
     mk (bot s) (identifying_method s) (channels s ∪ {[c]})
        (Dict.set n (length (objects s)) (active_users s))
        (objects s ++
           [User.join c
              (User.init mask [c] (IrcString.host mask)
                 (Bot.get_database (bot s)))])%list).
Proof.
  intros Hget Hm. unfold get_user in Hget.
  unfold join, bind at 1, channels_add, modify.
  unfold bind at 1, gets. simpl. rewrite (dict_contains_false _ _ Hget). simpl.
  unfold bind at 1, bind at 1, create_user, bind at 1, gets. simpl.
  rewrite Hm. rewrite decide_True by done.
  unfold bind at 1, alloc, active_users_setitem, modify. simpl.
  erewrite bind_ok; [|apply getitem_ok; simpl; apply dict_get_set_eq].
  erewrite user_join_ok. 2:{ simpl. apply (list_lookup_middle _ [] _ _ eq_refl). }
  unfold set_objects. simpl. rewrite insert_last. by rewrite Hm.
Qed.

Lemma create_user_misconfigured s mask chans :
  identifying_method s <> "mask" ->
  create_user mask chans s = (Raise (ValueError misconfigured_msg), s).
Proof.
  intros Hm. unfold create_user, bind, gets. by rewrite decide_False.
Qed.

Lemma join_untracked_misconfigured s n mask c :
  get_user n s = None -> identifying_method s <> "mask" ->
  join n mask c s
  = (Raise (ValueError misconfigured_msg),
     set_channels (channels s ∪ {[c]}) s).
Proof.
  intros Hget Hm. unfold get_user in Hget.
  unfold join, bind at 1, channels_add, modify.
  unfold bind at 1, gets. simpl. rewrite (dict_contains_false _ _ Hget). simpl.
  unfold bind at 1.
  erewrite bind_raise; [done|]. by apply create_user_misconfigured.
Qed.

Lemma on_privmsg_untracked_misconfigured s mask target :
  target ∈ channels s -> get_user (IrcString.nick mask) s = None ->
  identifying_method s <> "mask" ->
  on_privmsg mask target s = (Raise (ValueError misconfigured_msg), s).
Proof.
  intros Hc Hget Hm. unfold get_user in Hget.
  unfold on_privmsg, bind at 1, gets. rewrite bool_decide_eq_true_2 by done.
  simpl. unfold bind at 1. rewrite (dict_contains_false _ _ Hget). simpl.
  erewrite bind_raise; [done|]. by apply create_user_misconfigured.
Qed.

Lemma on_who_untracked_misconfigured s c n username server :
  c ∈ channels s -> get_user n s = None ->
  identifying_method s <> "mask" ->
  on_who c n username server s = (Raise (ValueError misconfigured_msg), s).
Proof.
  intros Hc Hget Hm. unfold get_user in Hget.
  unfold on_who, bind at 1, gets. rewrite bool_decide_eq_true_2 by done.
  simpl. unfold bind at 1. rewrite (dict_contains_false _ _ Hget). simpl.
  erewrite bind_raise; [done|]. by apply create_user_misconfigured.
Qed.

Lemma on_who_known s c n username server a u :
  c ∈ channels s -> tracked s n a u ->
  on_who c n username server s
  = (Ok tt, set_objects (<[a:=User.join c u]> (objects s)) s).
Proof.
  intros Hc [Hget Hobj]. unfold get_user in Hget.
  unfold on_who, bind at 1, gets. rewrite bool_decide_eq_true_2 by done.
  simpl. unfold bind at 1. rewrite (dict_contains_get _ _ _ Hget). simpl.
  erewrite bind_ok; [|by apply getitem_ok]. by erewrite user_join_ok.
Qed.

Lemma create_user_ok s mask chans :
  identifying_method s = "mask" ->
  create_user mask chans s
  = (Ok (length (objects s)),
     set_objects
       (objects s ++ [User.init mask chans (IrcString.host mask)
                        (Bot.get_database (bot s))])%list s).
Proof.
  intros Hm. unfold create_user, bind, gets. by rewrite decide_True.
Qed.

Lemma on_who_unknown s c n username server :
  c ∈ channels s -> get_user n s = None -> identifying_method s = "mask" ->
  on_who c n username server s
  = (Ok tt,
     set_active_users (Dict.set n (length (objects s)) (active_users s))
       (set_objects
          (objects s ++
             [User.init (IrcString.format n username server) [c]
                (IrcString.host (IrcString.format n username server))
                (Bot.get_database (bot s))])%list s)).
Proof.
  intros Hc Hget Hm. unfold get_user in Hget.
  unfold on_who, bind at 1, gets. rewrite bool_decide_eq_true_2 by done.
  simpl. unfold bind at 1. rewrite (dict_contains_false _ _ Hget). simpl.
  erewrite bind_ok; [|by apply create_user_ok]. done.
Qed.

Lemma on_privmsg_known s mask target a u :
  target ∈ channels s -> tracked s (IrcString.nick mask) a u ->
  on_privmsg mask target s
  = (Ok tt, set_objects (<[a:=User.join target u]> (objects s)) s).
Proof.
  intros Hc [Hget Hobj]. unfold get_user in Hget.
  unfold on_privmsg, bind at 1, gets. rewrite bool_decide_eq_true_2 by done.
  simpl. unfold bind at 1. rewrite (dict_contains_get _ _ _ Hget). simpl.
  erewrite bind_ok; [|by apply getitem_ok]. by erewrite user_join_ok.
Qed.

Lemma on_privmsg_unknown s mask target :
  target ∈ channels s -> get_user (IrcString.nick mask) s = None ->
  identifying_method s = "mask" ->
  on_privmsg mask target s
  = (Ok tt,
     set_active_users
       (Dict.set (IrcString.nick mask) (length (objects s)) (active_users s))
       (set_objects
          (objects s ++
             [User.init mask [target] (IrcString.host mask)
                (Bot.get_database (bot s))])%list s)).
Proof.
  intros Hc Hget Hm. unfold get_user in Hget.
  unfold on_privmsg, bind at 1, gets. rewrite bool_decide_eq_true_2 by done.
  simpl. unfold bind at 1. rewrite (dict_contains_false _ _ Hget). simpl.
  erewrite bind_ok; [|by apply create_user_ok]. done.
Qed.

Lemma on_privmsg_absent_channel s mask target :
  target ∉ channels s -> on_privmsg mask target s = (Ok tt, s).
Proof.
  intros Hc. unfold on_privmsg, bind, gets.
  by rewrite bool_decide_eq_false_2.
Qed.
End Join.

Lemma filter_absent (c : string) (l : list string) :
  c ∉ l -> filter (fun x => x = c) l = [].
Proof.
  induction l as [|x l IH]; [done|].
  intros [Hne Hl]%not_elem_of_cons. rewrite filter_cons.
  destruct (decide (x = c)); [congruence | by apply IH].
Qed.

Lemma count_one_of_NoDup (c : string) (l : list string) :
  NoDup l -> c ∈ l -> length (filter (fun x => x = c) l) = 1.
Proof.
  induction l as [|x l IH]; intros Hnd Hin.
  - by apply elem_of_nil in Hin.
  - apply NoDup_cons in Hnd as [Hx Hnd]. rewrite filter_cons.
    destruct (decide (x = c)) as [->|Hne]; simpl.
    + by rewrite filter_absent.
    + apply elem_of_cons in Hin as [->|Hin]; [done | by apply IH].
Qed.

(** C8. Joining a channel a second time changes nothing: for a tracked
    nickname both calls return normally and the state after the second is
    the state after the first; the user's channel set is the old one with
    the channel added, lists the channel once, and holds any other channel
    exactly when it did before. *)
Theorem join_idempotent
    (s : UsersPlugin.t) (n : string) (mask : IrcString.t) (c : string)
    (a : UsersPlugin.addr) (u : User.t) :
  tracked s n a u ->
  let s1 := UsersPlugin.exec (UsersPlugin.join n mask c) s in
  let s2 := UsersPlugin.exec (UsersPlugin.join n mask c) s1 in
  UsersPlugin.outcome (UsersPlugin.join n mask c) s = Ok tt /\
  UsersPlugin.outcome (UsersPlugin.join n mask c) s1 = Ok tt /\
  s2 = s1 /\
  exists u1, tracked s1 n a u1 /\
    User.channels u1 = User.channels u ∪ {[c]} /\
    length (filter (fun x => x = c) (elements (User.channels u1))) = 1 /\
    (forall c', c' <> c -> c' ∈ User.channels u1 <-> c' ∈ User.channels u).
Proof.
  intros H s1 s2.
  assert (E1 := join_tracked s n mask c a u H).
  assert (H1 : tracked s1 n a (User.join c u)).
  { subst s1. unfold UsersPlugin.exec. rewrite E1. destruct H as [Hget Hobj].
    split; [exact Hget|]. simpl. apply list_lookup_insert_eq.
    by apply lookup_lt_Some with u. }
  assert (E2 := join_tracked s1 n mask c a _ H1).
  assert (Es : s2 = s1).
  { subst s2. unfold UsersPlugin.exec at 1. rewrite E2.
    subst s1. unfold UsersPlugin.exec. rewrite E1. simpl.
    unfold UsersPlugin.set_objects, UsersPlugin.set_channels. simpl.
    rewrite list_insert_insert_eq. f_equal.
    - set_solver.
    - f_equal. unfold User.join, User.set_channels. simpl. f_equal. set_solver. }
  unfold UsersPlugin.outcome. rewrite E1, E2. simpl.
  split; [done|]. split; [done|]. split; [exact Es|].
  exists (User.join c u). split; [exact H1|]. simpl. split; [done|]. split.
  - apply count_one_of_NoDup; [apply NoDup_elements | set_solver].
  - intros c' Hc'. set_solver.
Qed.

Lemma join_idempotent_witness :
  tracked (cascade_state true) "u1" 0 (sample_user "u1" ["#a"]) /\
  UsersPlugin.exec (UsersPlugin.join "u1" (mask_of "u1") "#b")
    (UsersPlugin.exec (UsersPlugin.join "u1" (mask_of "u1") "#b")
       (cascade_state true))
  = UsersPlugin.exec (UsersPlugin.join "u1" (mask_of "u1") "#b")
      (cascade_state true).
Proof.
  assert (H : tracked (cascade_state true) "u1" 0 (sample_user "u1" ["#a"]))
    by (split; reflexivity).
  split; [exact H|].
  exact (proj1 (proj2 (proj2
    (join_idempotent _ "u1" (mask_of "u1") "#b" _ _ H)))).
Defined.

(** ** Connection reset *)

Section Reset.
Import UsersPlugin.

Lemma part_no_users s n mask c :
  active_users s = Dict.empty -> part n mask c s = (Ok tt, s).
Proof.
  intros H. unfold part, bind, gets. cbv beta.
  destruct (bool_decide (n = Bot.nick (bot s))); rewrite ?H; simpl;
    by rewrite ?H.
Qed.

Lemma quit_own_nick s mask :
  quit (Bot.nick (bot s)) mask s = (Ok tt, reset_state s).
Proof.
  unfold quit, bind at 1, gets. by rewrite bool_decide_eq_true_2.
Qed.

Lemma part_or_who_in_empty_state s e :
  is_part_or_who e = true ->
  channels s = ∅ -> active_users s = Dict.empty ->
  handle e s = (Ok tt, s).
Proof.
  intros He Hc Hu. destruct e as [m [] c|k t c| | |c n u h|]; try done; simpl.
  - by apply part_no_users.
  - by apply part_no_users.
  - apply on_who_absent_channel. rewrite Hc. set_solver.
Qed.

Lemma part_or_who_in_empty_state_run s evs :
  forallb is_part_or_who evs = true ->
  channels s = ∅ -> active_users s = Dict.empty ->
  run evs s = s /\ Forall (fun r => r = Ok tt) (outcomes evs s).
Proof.
  intros Hevs Hc Hu. induction evs as [|e evs IH]; simpl; [done|].
  simpl in Hevs. apply andb_true_iff in Hevs as [He Hevs].
  unfold exec, outcome.
  rewrite (part_or_who_in_empty_state s e He Hc Hu). simpl.
  destruct (IH Hevs) as [-> ?]. split; [done | by constructor].
Qed.
End Reset.

(** C7. Losing the connection, or seeing the bot's own nickname quit,
    leaves no channel and no user, so no nickname is found any more.  From
    there PART and KICK events and WHO replies return normally and change
    nothing, however many arrive.  A join puts its channel back among the
    tracked ones, after which (the identification strategy being the
    supported one) a WHO reply for that channel is applied again. *)
Theorem connection_reset (s : UsersPlugin.t) (mask : IrcString.t) :
  let s' := reset_state s in
  UsersPlugin.connection_lost s = (Ok tt, s') /\
  UsersPlugin.quit (Bot.nick (UsersPlugin.bot s)) mask s = (Ok tt, s') /\
  UsersPlugin.channels s' = ∅ /\
  UsersPlugin.active_users s' = Dict.empty /\
  (forall n, UsersPlugin.get_user n s' = None) /\
  (forall evs, forallb is_part_or_who evs = true ->
     run evs s' = s' /\ Forall (fun r => r = Ok tt) (outcomes evs s')) /\
  (forall n m c, c ∈ UsersPlugin.channels (UsersPlugin.exec (UsersPlugin.join n m c) s')) /\
  (UsersPlugin.identifying_method s = "mask" ->
   forall n m c n' username server,
     UsersPlugin.outcome (UsersPlugin.join n m c) s' = Ok tt /\
     is_Some (UsersPlugin.get_user n'
       (UsersPlugin.exec (UsersPlugin.on_who c n' username server)
          (UsersPlugin.exec (UsersPlugin.join n m c) s')))).
Proof.
  intros s'. split; [done|]. split; [apply quit_own_nick|].
  split; [done|]. split; [done|]. split; [done|].
  split; [intros evs Hevs; by apply part_or_who_in_empty_state_run|].
  split.
  - intros n m c. unfold UsersPlugin.exec.
    destruct (decide (UsersPlugin.identifying_method s' = "mask")) as [Hm|Hm].
    + rewrite join_untracked by done. simpl. set_solver.
    + rewrite join_untracked_misconfigured by done. simpl. set_solver.
  - intros Hm n m c n' username server.
    assert (Hnone : UsersPlugin.get_user n s' = None) by done.
    assert (Ej := join_untracked s' n m c Hnone Hm).
    unfold UsersPlugin.outcome, UsersPlugin.exec at 2. rewrite Ej.
    split; [done|]. simpl.
    set (s1 := UsersPlugin.mk _ _ _ _ _).
    assert (Hc : c ∈ UsersPlugin.channels s1) by (simpl; set_solver).
    unfold UsersPlugin.exec.
    destruct (decide (n = n')) as [<-|Hne].
    + assert (Ht : tracked s1 n (length (UsersPlugin.objects s))
                     (User.join c (User.init m [c] (IrcString.host m)
                        (Bot.get_database (UsersPlugin.bot s))))).
      { split; [|by apply list_lookup_middle].
        unfold UsersPlugin.get_user. simpl. by rewrite decide_True. }
      rewrite (on_who_known _ _ _ username server _ _ Hc Ht).
      destruct Ht as [Ht _]. simpl. eauto.
    + rewrite on_who_unknown; [| exact Hc | | exact Hm].
      * unfold UsersPlugin.get_user.
        cbn [snd UsersPlugin.active_users UsersPlugin.set_active_users].
        rewrite dict_get_set_eq. eauto.
      * unfold UsersPlugin.get_user. simpl. by rewrite decide_False.
Qed.

Lemma connection_reset_witness :
  run [JoinPartQuit (mask_of "u1") UsersPlugin.PART "#a";
       WhoReply "#a" "u2" "u" "host"] (reset_state (cascade_state true))
  = reset_state (cascade_state true).
Proof.
  destruct (connection_reset (cascade_state true) (mask_of "onebot"))
    as (_ & _ & _ & _ & _ & H & _).
  exact (proj1 (H [JoinPartQuit (mask_of "u1") UsersPlugin.PART "#a";
                   WhoReply "#a" "u2" "u" "host"] eq_refl)).
Defined.

(** ** What no handler touches *)

Section Keeps.
Import UsersPlugin.
Context {X : Type} (f : t -> X).

Lemma keeps_ret {A} (a : A) : keeps f (ret a).
Proof. done. Qed.

Lemma keeps_raise {A} e : keeps f (@raise A e).
Proof. done. Qed.

Lemma keeps_gets {A} (g : t -> A) : keeps f (gets g).
Proof. done. Qed.

Lemma keeps_modify (g : t -> t) :
  (forall s, f (g s) = f s) -> keeps f (modify g).
Proof. intros Hg s. apply Hg. Qed.

Lemma keeps_bind {A B} (m : M A) (k : A -> M B) :
  keeps f m -> (forall a, keeps f (k a)) -> keeps f (bind m k).
Proof.
  intros Hm Hk s. unfold bind. specialize (Hm s).
  destruct (m s) as [[a|e|] s']; simpl in *; [|done..].
  by rewrite Hk.
Qed.

Lemma keeps_for_each {A} (l : list A) (body : A -> M unit) :
  (forall x, keeps f (body x)) -> keeps f (for_each l body).
Proof.
  intros Hb. induction l as [|x l IH]; simpl; [apply keeps_ret|].
  apply keeps_bind; [apply Hb | intros _; apply IH].
Qed.

Lemma keeps_if {A} (b : bool) (m1 m2 : M A) :
  keeps f m1 -> keeps f m2 -> keeps f (if b then m1 else m2).
Proof. by destruct b. Qed.

Lemma keeps_deref a : keeps f (deref a).
Proof. intros s. unfold deref. by destruct (objects s !! a). Qed.

Lemma keeps_getitem k : keeps f (active_users_getitem k).
Proof.
  intros s. unfold active_users_getitem.
  by destruct (Dict.get k (active_users s)).
Qed.

(** Observations that ignore the store of objects. *)
Section Objects.
Hypothesis f_objects : forall h s, f (set_objects h s) = f s.

Lemma keeps_assign a u : keeps f (assign a u).
Proof.
  intros s. unfold assign. destruct (objects s !! a); simpl; [|done].
  apply f_objects.
Qed.

Lemma keeps_alloc u : keeps f (alloc u).
Proof. intros s. apply f_objects. Qed.

Lemma keeps_user_join a c : keeps f (user_join a c).
Proof.
  apply keeps_bind; [apply keeps_deref | intros; apply keeps_assign].
Qed.

Lemma keeps_user_part a c : keeps f (user_part a c).
Proof.
  apply keeps_bind; [apply keeps_deref|]. intros u.
  destruct (User.part c u); [apply keeps_assign | apply keeps_raise | done].
Qed.

Lemma keeps_user_still_in_channels a : keeps f (user_still_in_channels a).
Proof.
  apply keeps_bind; [apply keeps_deref | intros; apply keeps_ret].
Qed.

Lemma keeps_user_set_nick a n : keeps f (user_set_nick a n).
Proof.
  apply keeps_bind; [apply keeps_deref | intros; apply keeps_assign].
Qed.

Lemma keeps_create_user mask chans : keeps f (create_user mask chans).
Proof.
  apply keeps_bind; [apply keeps_gets|]. intros method.
  destruct (decide (method = "mask")); [|apply keeps_raise].
  apply keeps_bind; [apply keeps_gets | intros; apply keeps_alloc].
Qed.
End Objects.

(** Observations that ignore the dictionary of users. *)
Section ActiveUsers.
Hypothesis f_active_users : forall d s, f (set_active_users d s) = f s.

Lemma keeps_setitem k a : keeps f (active_users_setitem k a).
Proof. intros s. apply f_active_users. Qed.

Lemma keeps_delitem k : keeps f (active_users_delitem k).
Proof.
  intros s. unfold active_users_delitem.
  destruct (Dict.contains k (active_users s)); simpl; [|done].
  apply f_active_users.
Qed.
End ActiveUsers.

(** Observations that ignore the set of channels. *)
Section Channels.
Hypothesis f_channels : forall cs s, f (set_channels cs s) = f s.

Lemma keeps_channels_add c : keeps f (channels_add c).
Proof. intros s. apply f_channels. Qed.

Lemma keeps_channels_remove c : keeps f (channels_remove c).
Proof.
  intros s. unfold channels_remove.
  destruct (decide (c ∈ channels s)); simpl; [|done]. apply f_channels.
Qed.
End Channels.
End Keeps.

Create HintDb keeps discriminated.
#[local] Hint Resolve keeps_ret keeps_raise keeps_gets keeps_for_each keeps_if
  keeps_deref keeps_getitem keeps_assign keeps_alloc keeps_user_join
  keeps_user_part keeps_user_still_in_channels keeps_user_set_nick
  keeps_create_user keeps_setitem keeps_delitem keeps_channels_add
  keeps_channels_remove : keeps.

Ltac keeps_step :=
  lazymatch goal with
  | |- keeps _ (UsersPlugin.bind _ _) => apply keeps_bind; [|intros ?]
  | |- keeps _ (if _ then _ else _) => apply keeps_if
  | |- keeps _ (UsersPlugin.for_each _ _) => apply keeps_for_each; intros [? ?]
  | |- keeps _ (UsersPlugin.modify _) => apply keeps_modify; done
  | |- keeps _ _ => solve [eauto with keeps]
  end.

Section Configuration.
Import UsersPlugin.

Lemma keeps_configuration_handle e : keeps configuration (handle e).
Proof.
  destruct e as [m [] c|k tg c|nk nn|m tg|c n u h|]; simpl;
    unfold on_kick, join, part, quit, on_new_nick, on_privmsg, on_who,
      connection_lost;
    repeat keeps_step.
Qed.

Lemma init_ok b : init b = Ok (initial_state b).
Proof. reflexivity. Qed.

Lemma reachable_configuration b s :
  reachable b s -> configuration s = configuration (initial_state b).
Proof.
  induction 1 as [s Hi|s e _ IH].
  - rewrite init_ok in Hi. by injection Hi as <-.
  - unfold exec. by rewrite keeps_configuration_handle.
Qed.

Lemma reachable_run b s evs : reachable b s -> reachable b (run evs s).
Proof.
  revert s. induction evs as [|e evs IH]; intros s Hs; simpl; [done|].
  apply IH. by constructor.
Qed.
End Configuration.

(** ** Configuration errors *)

(** C3, as the code has it. Construction never raises, whatever
    [identify_by] says: it stores the value and starts from the empty
    registry.  In every state reached from there the stored value is the
    configured one, and when that is not [mask] the [ValueError] comes out
    of the handler that has to create a user: a join of an untracked
    nickname, or a message or a WHO reply of an untracked nickname in a
    tracked channel. *)
Theorem configuration_checked_when_user_created (b : Bot.t) :
  UsersPlugin.init b = Ok (initial_state b) /\
  forall s, reachable b s ->
    UsersPlugin.identifying_method s
    = UsersPlugin.identifying_method (initial_state b) /\
    (UsersPlugin.identifying_method (initial_state b) <> "mask" ->
     (forall n mask c, UsersPlugin.get_user n s = None ->
        UsersPlugin.outcome (UsersPlugin.join n mask c) s
        = Raise (ValueError misconfigured_msg)) /\
     (forall mask target, target ∈ UsersPlugin.channels s ->
        UsersPlugin.get_user (IrcString.nick mask) s = None ->
        UsersPlugin.outcome (UsersPlugin.on_privmsg mask target) s
        = Raise (ValueError misconfigured_msg)) /\
     (forall c n username server, c ∈ UsersPlugin.channels s ->
        UsersPlugin.get_user n s = None ->
        UsersPlugin.outcome (UsersPlugin.on_who c n username server) s
        = Raise (ValueError misconfigured_msg))).
Proof.
  split; [apply init_ok|]. intros s Hs.
  assert (Hm : UsersPlugin.identifying_method s
               = UsersPlugin.identifying_method (initial_state b)).
  { apply reachable_configuration in Hs. by injection Hs. }
  split; [exact Hm|]. rewrite <- Hm. intros Hbad.
  unfold UsersPlugin.outcome. repeat split.
  - intros n mask c Hn. by rewrite join_untracked_misconfigured.
  - intros mask target Hc Hn. by rewrite on_privmsg_untracked_misconfigured.
  - intros c n username server Hc Hn. by rewrite on_who_untracked_misconfigured.
Qed.

Lemma configuration_checked_when_user_created_witness :
  reachable misconfigured_bot (initial_state misconfigured_bot) /\
  UsersPlugin.identifying_method (initial_state misconfigured_bot) <> "mask" /\
  UsersPlugin.outcome (UsersPlugin.join "x" (mask_of "x") "#a")
    (initial_state misconfigured_bot)
  = Raise (ValueError misconfigured_msg).
Proof.
  assert (Hr : reachable misconfigured_bot (initial_state misconfigured_bot))
    by (constructor; reflexivity).
  assert (Hbad : UsersPlugin.identifying_method
                   (initial_state misconfigured_bot) <> "mask")
    by discriminate.
  split; [exact Hr|]. split; [exact Hbad|].
  destruct (configuration_checked_when_user_created misconfigured_bot)
    as [_ H].
  destruct (H _ Hr) as [_ H'].
  exact (proj1 (H' Hbad) "x" (mask_of "x") "#a" eq_refl).
Defined.

(** C3 as stated fails: with [identify_by] set to a strategy the plugin
    does not have, construction returns normally. *)
Lemma init_accepts_unknown_strategy :
  Dict.get "identify_by"
    (default Dict.empty
       (Dict.get UsersPlugin.__name__ (Bot.config misconfigured_bot)))
  = Some "nickserv" /\
  ~ (exists e, UsersPlugin.init misconfigured_bot = Raise e) /\
  UsersPlugin.init misconfigured_bot = Ok (initial_state misconfigured_bot).
Proof.
  split; [reflexivity|]. split; [|reflexivity].
  intros [e He]. discriminate He.
Qed.

(** ** The bot leaves a channel *)

(** C1, evaluated. With [u1] in [{#a}] and [u2] in [{#a, #b}], whichever
    was seen first, [part] for the bot's own nickname on [#a] raises
    [KeyError]: the channel is dropped from the tracked set inside the loop,
    once per user, and is gone at the second turn.  The state it leaves has
    [u1] forgotten, [u2] in [{#b}] and [#a] untracked. *)
Theorem part_own_nick_cascade_raises (u1_first : bool) :
  let s' := UsersPlugin.exec
              (UsersPlugin.part "onebot" (mask_of "onebot") "#a")
              (cascade_state u1_first) in
  UsersPlugin.outcome (UsersPlugin.part "onebot" (mask_of "onebot") "#a")
    (cascade_state u1_first) = Raise (KeyError "#a") /\
  UsersPlugin.get_user "u1" s' = None /\
  tracked s' "u2" 1
    (User.set_channels {[ "#b" ]} (sample_user "u2" ["#a"; "#b"])) /\
  UsersPlugin.channels s' = {[ "#b" ]}.
Proof.
  destruct u1_first; vm_compute; repeat split; reflexivity.
Qed.

(** ** Channel containment *)

(** C5, evaluated. The bot, [x] and [y] join [#a] and the bot leaves. The
    last handler raises [KeyError] at its second turn, after [#a] has been
    dropped from the tracked channels and before [y] has been visited: the
    state reached tracks [y] in [#a], a channel the registry does not
    track. *)
Theorem containment_broken_when_bot_leaves :
  let s := run bot_leaves_busy_channel (initial_state sample_bot) in
  reachable sample_bot s /\
  outcomes bot_leaves_busy_channel (initial_state sample_bot)
  = [Ok tt; Ok tt; Ok tt; Raise (KeyError "#a")] /\
  tracked s "y" 2 (sample_user "y" ["#a"]) /\
  "#a" ∈ User.channels (sample_user "y" ["#a"]) /\
  UsersPlugin.channels s = ∅ /\
  ~ channel_containment s.
Proof.
  intros s.
  assert (Ht : tracked s "y" 2 (sample_user "y" ["#a"]))
    by (split; vm_compute; reflexivity).
  assert (Hy : "#a" ∈ User.channels (sample_user "y" ["#a"]))
    by (apply channel_present; vm_compute; reflexivity).
  assert (Hc : UsersPlugin.channels s = ∅) by (vm_compute; reflexivity).
  split; [apply reachable_run; constructor; reflexivity|].
  split; [vm_compute; reflexivity|].
  split; [exact Ht|]. split; [exact Hy|]. split; [exact Hc|].
  intros Hinv. specialize (Hinv _ _ _ Ht _ Hy). rewrite Hc in Hinv.
  by apply not_elem_of_empty in Hinv.
Qed.

(** ** Leaving a channel, step by step *)

Section Part.
Import UsersPlugin.

Lemma part_unfold nick mask c :
  part nick mask c
  = bind (gets (fun s => bool_decide (nick = Bot.nick (bot s)))) (fun own =>
    bind (if own : bool then
            bind (gets active_users) (fun items =>
              for_each items (part_loop_body c))
          else ret tt) (fun _ => part_tail nick c)).
Proof. reflexivity. Qed.

Lemma part_tail_untracked s nick c :
  get_user nick s = None -> part_tail nick c s = (Ok tt, s).
Proof.
  unfold get_user. intros H. unfold part_tail, bind, gets.
  by rewrite (dict_contains_false _ _ H).
Qed.

Lemma part_tail_raise s nick c a u :
  tracked s nick a u -> c ∉ User.channels u ->
  part_tail nick c s = (Raise (KeyError c), s).
Proof.
  intros [Hget Hobj] Hc. unfold get_user in Hget.
  unfold part_tail, bind at 1, gets. rewrite (dict_contains_get _ _ _ Hget).
  simpl. erewrite bind_ok; [|by apply getitem_ok].
  erewrite bind_raise; [done|]. by apply user_part_raise with u.
Qed.

Lemma part_tail_ok s nick c a u :
  tracked s nick a u -> c ∈ User.channels u ->
  part_tail nick c s = (Ok tt, after_user_part nick a u c s).
Proof.
  intros [Hget Hobj] Hc. unfold get_user in Hget.
  unfold part_tail, bind at 1, gets. rewrite (dict_contains_get _ _ _ Hget).
  simpl. erewrite bind_ok; [|by apply getitem_ok].
  erewrite bind_ok; [|by apply user_part_ok].
  erewrite bind_ok; [|by apply getitem_ok].
  erewrite bind_ok.
  2:{ apply user_still_in_channels_ok. simpl.
      apply list_lookup_insert_eq. by apply lookup_lt_Some with u. }
  unfold after_user_part. fold (parted c u).
  destruct (User.still_in_channels (parted c u)); simpl; [done|].
  by rewrite delitem_ok by (simpl; by apply dict_contains_get with a).
Qed.

Lemma part_other s nick mask c :
  nick <> Bot.nick (bot s) -> part nick mask c s = part_tail nick c s.
Proof.
  intros Hne. rewrite part_unfold. unfold bind at 1, gets.
  by rewrite bool_decide_eq_false_2.
Qed.

Lemma part_own s mask c :
  part (Bot.nick (bot s)) mask c s
  = bind (for_each (active_users s) (part_loop_body c))
      (fun _ => part_tail (Bot.nick (bot s)) c) s.
Proof.
  rewrite part_unfold. unfold bind at 1, gets.
  by rewrite bool_decide_eq_true_2.
Qed.

(** One turn of the loop. *)
Lemma part_loop_body_raise_user s n a u c :
  objects s !! a = Some u -> c ∉ User.channels u ->
  part_loop_body c (n, a) s = (Raise (KeyError c), s).
Proof.
  intros Hobj Hc. unfold part_loop_body.
  erewrite bind_raise; [done|]. by apply user_part_raise with u.
Qed.

Lemma part_loop_body_parted s n a u c :
  tracked s n a u -> c ∈ User.channels u ->
  part_loop_body c (n, a) s = channels_remove c (after_user_part n a u c s).
Proof.
  intros [Hget Hobj] Hc. unfold get_user in Hget. unfold part_loop_body.
  erewrite bind_ok; [|by apply user_part_ok].
  erewrite bind_ok.
  2:{ apply user_still_in_channels_ok. simpl.
      apply list_lookup_insert_eq. by apply lookup_lt_Some with u. }
  unfold after_user_part. fold (parted c u).
  destruct (User.still_in_channels (parted c u)); cbn [negb]; [done|].
  erewrite bind_ok; [done|].
  apply delitem_ok. simpl. by apply dict_contains_get with a.
Qed.
End Part.

(** ** Well-formed states *)

Section DictKeys.
Context {V : Type}.
Implicit Types (d : Dict.t V) (k : string) (v : V).

Lemma dict_keys_set d k v :
  NoDup (Dict.keys d) -> NoDup (Dict.keys (Dict.set k v d)).
Proof.
  induction d as [|[k' v'] d IH]; simpl.
  - intros _. apply NoDup_singleton.
  - intros [Hk' Hd]%NoDup_cons.
    destruct (decide (k' = k)) as [->|Hne]; simpl.
    + by apply NoDup_cons.
    + apply NoDup_cons. split; [|by apply IH].
      apply dict_get_None_keys. rewrite dict_get_set_ne by done.
      by apply dict_get_None_keys.
Qed.

Lemma dict_keys_remove d k :
  NoDup (Dict.keys d) -> NoDup (Dict.keys (Dict.remove k d)).
Proof.
  induction d as [|[k' v'] d IH]; simpl; [done|].
  intros [Hk' Hd]%NoDup_cons.
  destruct (decide (k' = k)) as [->|Hne]; simpl; [by apply IH|].
  apply NoDup_cons. split; [|by apply IH].
  apply dict_get_None_keys. rewrite dict_get_remove_ne by done.
  by apply dict_get_None_keys.
Qed.
End DictKeys.

Section WellFormed.
Import UsersPlugin.

Lemma wf_initial b : wf (initial_state b).
Proof. split; simpl; [apply NoDup_nil_2 | done..]. Qed.

Lemma wf_reset s : wf (reset_state s).
Proof. split; simpl; [apply NoDup_nil_2 | done..]. Qed.

Lemma wf_set_channels s cs : wf s -> wf (set_channels cs s).
Proof. intros [? ? ?]. by split. Qed.

Lemma wf_update_object s a u :
  wf s -> wf (set_objects (<[a:=u]> (objects s)) s).
Proof.
  intros [Hk Ha Hv]. split; [done..|]. intros n b Hn. simpl.
  apply lookup_lt_is_Some. rewrite length_insert.
  apply lookup_lt_is_Some. by apply Hv with n.
Qed.

Lemma wf_remove s k :
  wf s -> wf (set_active_users (Dict.remove k (active_users s)) s).
Proof.
  intros [Hk Ha Hv]. unfold get_user in *. split; simpl.
  - by apply dict_keys_remove.
  - intros n1 n2 a. unfold get_user. simpl.
    destruct (decide (k = n1)) as [<-|?]; [by rewrite dict_get_remove_eq|].
    destruct (decide (k = n2)) as [<-|?]; [by rewrite dict_get_remove_eq|].
    rewrite !dict_get_remove_ne by done. apply Ha.
  - intros n a. unfold get_user. simpl.
    destruct (decide (k = n)) as [<-|?]; [by rewrite dict_get_remove_eq|].
    rewrite dict_get_remove_ne by done. apply Hv.
Qed.

Lemma wf_after_user_part s n a u c : wf s -> wf (after_user_part n a u c s).
Proof.
  intros H. unfold after_user_part.
  destruct (User.still_in_channels (parted c u)).
  - by apply wf_update_object.
  - apply (wf_remove (set_objects _ s)). by apply wf_update_object.
Qed.

Lemma wf_new_user s n u cs :
  wf s -> get_user n s = None ->
  wf (mk (bot s) (identifying_method s) cs
        (Dict.set n (length (objects s)) (active_users s))
        (objects s ++ [u])%list).
Proof.
  intros [Hk Ha Hv] Hn. unfold get_user in *.
  assert (Hfresh : forall k, Dict.get k (active_users s)
                             <> Some (length (objects s))).
  { intros k Hget. apply Hv, lookup_lt_is_Some in Hget. lia. }
  split; simpl.
  - by apply dict_keys_set.
  - intros n1 n2 a. unfold get_user. simpl.
    destruct (decide (n = n1)) as [<-|?], (decide (n = n2)) as [<-|?];
      rewrite ?dict_get_set_eq, ?dict_get_set_ne by done; [done|..].
    + intros [= <-] H. by apply Hfresh in H.
    + intros H [= <-]. by apply Hfresh in H.
    + apply Ha.
  - intros k a. unfold get_user. simpl.
    destruct (decide (n = k)) as [<-|?];
      rewrite ?dict_get_set_eq, ?dict_get_set_ne by done.
    + intros [= <-]. apply lookup_lt_is_Some. rewrite length_app. simpl. lia.
    + intros H. apply Hv, lookup_lt_is_Some in H.
      apply lookup_lt_is_Some. rewrite length_app. lia.
Qed.

Lemma wf_rename s old new a u :
  wf s -> get_user old s = Some a ->
  wf (set_active_users
        (Dict.remove old (Dict.set new a (active_users s)))
        (set_objects (<[a:=u]> (objects s)) s)).
Proof.
  intros H Hold. apply (wf_update_object _ a u) in H.
  destruct H as [Hk Ha Hv]. unfold get_user in *. simpl in *.
  split; simpl.
  - by apply dict_keys_remove, dict_keys_set.
  - intros n1 n2 b. unfold get_user. simpl.
    destruct (decide (old = n1)) as [<-|?]; [by rewrite dict_get_remove_eq|].
    destruct (decide (old = n2)) as [<-|?]; [by rewrite dict_get_remove_eq|].
    rewrite !dict_get_remove_ne by done.
    destruct (decide (new = n1)) as [<-|?], (decide (new = n2)) as [<-|?];
      rewrite ?dict_get_set_eq, ?dict_get_set_ne by done; [done|..].
    + intros [= <-] H. pose proof (Ha old n2 a Hold H). congruence.
    + intros H [= <-]. pose proof (Ha old n1 a Hold H). congruence.
    + apply Ha.
  - intros k b. unfold get_user. simpl.
    destruct (decide (old = k)) as [<-|?]; [by rewrite dict_get_remove_eq|].
    rewrite dict_get_remove_ne by done.
    destruct (decide (new = k)) as [<-|?];
      rewrite ?dict_get_set_eq, ?dict_get_set_ne by done.
    + intros [= <-]. by apply Hv with old.
    + apply Hv.
Qed.
End WellFormed.

Section PartLoop.
Import UsersPlugin.

(** A rule for the loop of [part]: [I] holds of the items still to visit
    and the current state, [E] of the state an exception leaves. *)
Lemma part_loop_rule c (I : Dict.t addr -> t -> Prop) (E : t -> Prop) :
  (forall n a rest s, I ((n, a) :: rest) s ->
     exists u, tracked s n a u /\
       (c ∉ User.channels u -> E s) /\
       (c ∈ User.channels u ->
        let s2 := after_user_part n a u c s in
        (c ∉ channels s2 -> E s2) /\
        (c ∈ channels s2 ->
         I rest (set_channels (channels s2 ∖ {[c]}) s2)))) ->
  forall items s, I items s ->
    match for_each items (part_loop_body c) s with
    | (Ok _, s') => I [] s'
    | (Raise e, s') => e = KeyError c /\ E s'
    | (Stuck, _) => False
    end.
Proof.
  intros Hstep items. induction items as [|[n a] rest IH]; intros s HI.
  - done.
  - destruct (Hstep _ _ _ _ HI) as (u & Ht & Hraise & Hok).
    cbn [for_each].
    destruct (decide (c ∈ User.channels u)) as [Hc|Hc].
    + destruct (Hok Hc) as [Hraise2 Hnext].
      unfold bind. rewrite (part_loop_body_parted _ _ _ _ _ Ht Hc).
      unfold channels_remove.
      destruct (decide (c ∈ channels (after_user_part n a u c s))) as [Hs|Hs].
      * apply IH. by apply Hnext.
      * split; [done | by apply Hraise2].
    + unfold bind.
      rewrite (part_loop_body_raise_user _ _ _ _ _ (proj2 Ht) Hc).
      split; [done | by apply Hraise].
Qed.

Lemma pending_start s : wf s -> pending (active_users s) s.
Proof.
  intros H. split; [done|]. split; [apply H|].
  intros k v Hin. by apply dict_elem_of_get; [apply H|].
Qed.

Lemma pending_head n a rest s :
  pending ((n, a) :: rest) s -> exists u, tracked s n a u.
Proof.
  intros (Hwf & _ & Hsub).
  assert (Hn : get_user n s = Some a) by (apply Hsub; left).
  destruct (wf_valid _ Hwf _ _ Hn) as [u Hu]. by exists u.
Qed.

Lemma get_user_after_user_part s n a u c k :
  k <> n -> get_user k (after_user_part n a u c s) = get_user k s.
Proof.
  intros Hk. unfold after_user_part, get_user.
  destruct (User.still_in_channels (parted c u)); simpl; [done|].
  by rewrite dict_get_remove_ne.
Qed.

Lemma pending_next n a rest s u c cs :
  pending ((n, a) :: rest) s ->
  pending rest (set_channels cs (after_user_part n a u c s)).
Proof.
  intros (Hwf & [Hn Hnd]%NoDup_cons & Hsub).
  split; [by apply wf_set_channels, wf_after_user_part|].
  split; [done|]. intros k v Hin.
  change (get_user k (after_user_part n a u c s) = Some v).
  rewrite get_user_after_user_part; [apply Hsub; by right|].
  intros ->. apply Hn. apply list_elem_of_fmap. by exists (n, v).
Qed.

Lemma part_loop_wf c s :
  wf s ->
  match for_each (active_users s) (part_loop_body c) s with
  | (Ok _, s') => wf s'
  | (Raise e, s') => e = KeyError c /\ wf s'
  | (Stuck, _) => False
  end.
Proof.
  intros Hwf.
  assert (Hstep : forall n a rest s0, pending ((n, a) :: rest) s0 ->
     exists u, tracked s0 n a u /\
       (c ∉ User.channels u -> wf s0) /\
       (c ∈ User.channels u ->
        let s2 := after_user_part n a u c s0 in
        (c ∉ channels s2 -> wf s2) /\
        (c ∈ channels s2 ->
         pending rest (set_channels (channels s2 ∖ {[c]}) s2)))).
  { intros n a rest s0 Hp. destruct (pending_head _ _ _ _ Hp) as [u Hu].
    exists u. split; [done|]. split; [intros _; apply Hp|]. intros Hc s2.
    split; [intros _; apply wf_after_user_part, Hp|].
    intros _. by apply pending_next. }
  pose proof (part_loop_rule c pending wf Hstep _ _ (pending_start _ Hwf))
    as H.
  destruct (for_each (active_users s) (part_loop_body c) s) as [[[]|e|] s'];
    [apply H | exact H | exact H].
Qed.

Lemma part_tail_safe nick c s :
  wf s ->
  wf (part_tail nick c s).2 /\ (part_tail nick c s).1 <> Stuck.
Proof.
  intros Hwf. destruct (get_user nick s) as [a|] eqn:Hget.
  - destruct (wf_valid _ Hwf _ _ Hget) as [u Hu].
    assert (Ht : tracked s nick a u) by done.
    destruct (decide (c ∈ User.channels u)) as [Hc|Hc].
    + rewrite (part_tail_ok _ _ _ _ _ Ht Hc). simpl.
      split; [by apply wf_after_user_part | done].
    + by rewrite (part_tail_raise _ _ _ _ _ Ht Hc).
  - by rewrite part_tail_untracked.
Qed.

Lemma part_safe nick mask c s :
  wf s ->
  wf (part nick mask c s).2 /\ (part nick mask c s).1 <> Stuck.
Proof.
  intros Hwf. destruct (decide (nick = Bot.nick (bot s))) as [->|Hne].
  - rewrite part_own. unfold bind. pose proof (part_loop_wf c s Hwf) as H.
    destruct (for_each (active_users s) (part_loop_body c) s)
      as [[[]|e|] s']; [|by destruct H|done].
    by apply part_tail_safe.
  - rewrite part_other by done. by apply part_tail_safe.
Qed.
End PartLoop.

Section Safety.
Import UsersPlugin.

Lemma join_safe n mask c s :
  wf s -> wf (join n mask c s).2 /\ (join n mask c s).1 <> Stuck.
Proof.
  intros Hwf. destruct (get_user n s) as [a|] eqn:Hget.
  - destruct (wf_valid _ Hwf _ _ Hget) as [u Hu].
    rewrite (join_tracked s n mask c a u) by done. simpl.
    split; [|done]. by apply (wf_update_object (set_channels _ s)),
      wf_set_channels.
  - destruct (decide (identifying_method s = "mask")) as [Hm|Hm].
    + rewrite join_untracked by done. simpl.
      split; [by apply wf_new_user | done].
    + rewrite join_untracked_misconfigured by done. simpl.
      split; [by apply wf_set_channels | done].
Qed.

Lemma quit_other n mask s :
  n <> Bot.nick (bot s) ->
  quit n mask s
  = (Ok tt,
     if Dict.contains n (active_users s)
     then set_active_users (Dict.remove n (active_users s)) s else s).
Proof.
  intros Hne. unfold quit, bind at 1, gets.
  rewrite bool_decide_eq_false_2 by done.
  unfold bind, ret, gets, active_users_delitem.
  destruct (Dict.contains n (active_users s)) eqn:Hk; [by rewrite Hk | done].
Qed.

Lemma quit_safe n mask s :
  wf s -> wf (quit n mask s).2 /\ (quit n mask s).1 <> Stuck.
Proof.
  intros Hwf. destruct (decide (n = Bot.nick (bot s))) as [->|Hne].
  - rewrite quit_own_nick. simpl. split; [apply wf_reset | done].
  - rewrite quit_other by done. simpl. split; [|done].
    destruct (Dict.contains n (active_users s)); [by apply wf_remove | done].
Qed.

Lemma on_new_nick_untracked s nick new_nick :
  get_user (IrcString.nick nick) s = None ->
  on_new_nick nick new_nick s = (Ok tt, s).
Proof.
  unfold get_user. intros H. unfold on_new_nick, bind, gets.
  by rewrite (dict_contains_false _ _ H).
Qed.

Lemma on_new_nick_safe nick new_nick s :
  wf s ->
  wf (on_new_nick nick new_nick s).2 /\
  (on_new_nick nick new_nick s).1 <> Stuck.
Proof.
  intros Hwf. destruct (get_user (IrcString.nick nick) s) as [a|] eqn:Hget.
  - destruct (wf_valid _ Hwf _ _ Hget) as [u Hu].
    rewrite (on_new_nick_tracked s nick new_nick a u) by done. simpl.
    split; [by apply wf_rename | done].
  - by rewrite on_new_nick_untracked.
Qed.

Lemma on_privmsg_safe mask target s :
  wf s ->
  wf (on_privmsg mask target s).2 /\ (on_privmsg mask target s).1 <> Stuck.
Proof.
  intros Hwf. destruct (decide (target ∈ channels s)) as [Hc|Hc];
    [|by rewrite on_privmsg_absent_channel].
  destruct (get_user (IrcString.nick mask) s) as [a|] eqn:Hget.
  - destruct (wf_valid _ Hwf _ _ Hget) as [u Hu].
    rewrite (on_privmsg_known s mask target a u) by done. simpl.
    split; [by apply wf_update_object | done].
  - destruct (decide (identifying_method s = "mask")) as [Hm|Hm].
    + rewrite on_privmsg_unknown by done. simpl.
      split; [|done]. by apply (wf_new_user s).
    + by rewrite on_privmsg_untracked_misconfigured.
Qed.

Lemma on_who_safe c n username server s :
  wf s ->
  wf (on_who c n username server s).2 /\
  (on_who c n username server s).1 <> Stuck.
Proof.
  intros Hwf. destruct (decide (c ∈ channels s)) as [Hc|Hc];
    [|by rewrite on_who_absent_channel].
  destruct (get_user n s) as [a|] eqn:Hget.
  - destruct (wf_valid _ Hwf _ _ Hget) as [u Hu].
    rewrite (on_who_known s c n username server a u) by done. simpl.
    split; [by apply wf_update_object | done].
  - destruct (decide (identifying_method s = "mask")) as [Hm|Hm].
    + rewrite on_who_unknown by done. simpl.
      split; [|done]. by apply (wf_new_user s).
    + by rewrite on_who_untracked_misconfigured.
Qed.

(** No handler dereferences a dangling address, and each leaves a
    well-formed state, whether it returns or raises. *)
Lemma handle_safe e s :
  wf s -> wf (exec (handle e) s) /\ outcome (handle e) s <> Stuck.
Proof.
  intros Hwf. unfold exec, outcome.
  destruct e as [m [] c|k tg c|nk nn|m tg|c n u h|]; simpl.
  - by apply join_safe.
  - by apply part_safe.
  - by apply quit_safe.
  - by apply part_safe.
  - by apply on_new_nick_safe.
  - by apply on_privmsg_safe.
  - by apply on_who_safe.
  - split; [apply wf_reset | done].
Qed.

Lemma reachable_wf b s : reachable b s -> wf s.
Proof.
  induction 1 as [s Hi|s e _ IH].
  - rewrite init_ok in Hi. injection Hi as <-. apply wf_initial.
  - by apply handle_safe.
Qed.
End Safety.

(** ** Leaving a channel that was never joined *)

Section Unjoined.
Import UsersPlugin.

Lemma tracked_after_user_part s nick a u n x ux c :
  tracked s nick a u -> n <> nick -> x <> a ->
  tracked (after_user_part n x ux c s) nick a u.
Proof.
  intros [Hget Hobj] Hn Hx. split.
  - by rewrite get_user_after_user_part.
  - unfold after_user_part.
    destruct (User.still_in_channels (parted c ux)); simpl;
      by rewrite list_lookup_insert_ne.
Qed.

(** The loop of [part] cannot get past a user who is not in the channel:
    it raises there, or earlier, and that user's record is as it was. *)
Lemma part_loop_blocked c s nick a u :
  wf s -> tracked s nick a u -> c ∉ User.channels u ->
  exists s', for_each (active_users s) (part_loop_body c) s
             = (Raise (KeyError c), s') /\ tracked s' nick a u.
Proof.
  intros Hwf Ht Hc.
  set (I := fun items s0 =>
              pending items s0 /\ tracked s0 nick a u /\ (nick, a) ∈ items).
  assert (Hstep : forall n x rest s0, I ((n, x) :: rest) s0 ->
     exists ux, tracked s0 n x ux /\
       (c ∉ User.channels ux -> tracked s0 nick a u) /\
       (c ∈ User.channels ux ->
        let s2 := after_user_part n x ux c s0 in
        (c ∉ channels s2 -> tracked s2 nick a u) /\
        (c ∈ channels s2 ->
         I rest (set_channels (channels s2 ∖ {[c]}) s2)))).
  { intros n x rest s0 (Hp & Ht0 & Hin).
    destruct (pending_head _ _ _ _ Hp) as [ux Hux].
    exists ux. split; [done|]. split; [done|]. intros Hcx s2.
    assert (Hn : n <> nick).
    { intros ->. destruct Ht0 as [Hg0 Ho0], Hux as [Hg1 Ho1].
      rewrite Hg0 in Hg1. injection Hg1 as <-. congruence. }
    assert (Hx : x <> a).
    { intros ->. apply Hn. destruct Hp as [Hwf0 _].
      apply (wf_alias _ Hwf0 n nick a); [apply Hux | apply Ht0]. }
    assert (Ht2 : tracked s2 nick a u)
      by (by apply tracked_after_user_part).
    split; [done|]. intros _. split; [by apply pending_next|].
    split; [exact Ht2|].
    apply elem_of_cons in Hin as [[= ? ?]|Hin]; [congruence | done]. }
  assert (Hstart : I (active_users s) s).
  { split; [by apply pending_start|]. split; [done|].
    apply dict_get_elem_of, Ht. }
  pose proof (part_loop_rule c I (fun s0 => tracked s0 nick a u)
                Hstep _ _ Hstart) as H.
  destruct (for_each (active_users s) (part_loop_body c) s)
    as [[[]|e|] s'].
  - destruct H as (_ & _ & Hin). by apply elem_of_nil in Hin.
  - destruct H as [-> H]. by exists s'.
  - done.
Qed.
End Unjoined.

(** C2. When a tracked nickname parts a channel its record does not list,
    [part] raises [KeyError] for that channel, and the nickname still leads
    to the same object with the same value; the state left is well formed.
    When the nickname is not the bot's own, nothing at all has changed: the
    next event finds the state the failed one found. *)
Theorem part_unjoined_channel_raises
    (s : UsersPlugin.t) (nick : string) (mask : IrcString.t) (c : string)
    (a : UsersPlugin.addr) (u : User.t) :
  wf s -> tracked s nick a u -> c ∉ User.channels u ->
  let s' := UsersPlugin.exec (UsersPlugin.part nick mask c) s in
  UsersPlugin.outcome (UsersPlugin.part nick mask c) s = Raise (KeyError c) /\
  tracked s' nick a u /\
  wf s' /\
  (nick <> Bot.nick (UsersPlugin.bot s) -> s' = s).
Proof.
  intros Hwf Ht Hc s'.
  assert (Hwf' : wf s') by (by apply part_safe).
  subst s'. unfold UsersPlugin.outcome, UsersPlugin.exec in *.
  destruct (decide (nick = Bot.nick (UsersPlugin.bot s))) as [->|Hne].
  - revert Hwf'. rewrite part_own. unfold UsersPlugin.bind.
    destruct (part_loop_blocked c s _ a u Hwf Ht Hc) as (s' & -> & Ht').
    by simpl.
  - revert Hwf'. rewrite part_other by done.
    rewrite (part_tail_raise _ _ _ _ _ Ht Hc). by simpl.
Qed.

Lemma part_unjoined_channel_raises_witness :
  let s := run [JoinPartQuit (mask_of "dave") UsersPlugin.JOIN "#a"]
             (initial_state sample_bot) in
  wf s /\
  tracked s "dave" 0 (User.join "#a" (sample_user "dave" ["#a"])) /\
  ("#z" ∉ User.channels (User.join "#a" (sample_user "dave" ["#a"]))) /\
  UsersPlugin.outcome (UsersPlugin.part "dave" (mask_of "dave") "#z") s
  = Raise (KeyError "#z") /\
  UsersPlugin.exec (UsersPlugin.part "dave" (mask_of "dave") "#z") s = s.
Proof.
  intros s.
  assert (Hwf : wf s).
  { apply (reachable_wf sample_bot), reachable_run.
    constructor. reflexivity. }
  assert (Ht : tracked s "dave" 0 (User.join "#a" (sample_user "dave" ["#a"])))
    by (split; reflexivity).
  assert (Hc : "#z" ∉ User.channels (User.join "#a" (sample_user "dave" ["#a"])))
    by (apply channel_absent; reflexivity).
  split; [exact Hwf|]. split; [exact Ht|]. split; [exact Hc|].
  destruct (part_unjoined_channel_raises s "dave" (mask_of "dave") "#z" _ _
              Hwf Ht Hc) as (Ho & _ & _ & Hs).
  split; [exact Ho|]. apply Hs. discriminate.
Defined.

(** ** The loop of [part] with two users or more *)

Section TwoUsers.
Import UsersPlugin.

(** Whenever the bot leaves a channel while two or more users are tracked,
    [part] raises: at the second turn of the loop at the latest. *)
Lemma part_own_nick_raises_with_two_users s mask c :
  wf s -> 2 <= length (active_users s) ->
  outcome (part (Bot.nick (bot s)) mask c) s = Raise (KeyError c).
Proof.
  intros Hwf Hlen.
  set (I := fun (items : Dict.t addr) s0 =>
              pending items s0 /\
              (2 <= length items \/ (1 <= length items /\ c ∉ channels s0))).
  assert (Hstep : forall n x rest s0, I ((n, x) :: rest) s0 ->
     exists ux, tracked s0 n x ux /\
       (c ∉ User.channels ux -> True) /\
       (c ∈ User.channels ux ->
        let s2 := after_user_part n x ux c s0 in
        (c ∉ channels s2 -> True) /\
        (c ∈ channels s2 ->
         I rest (set_channels (channels s2 ∖ {[c]}) s2)))).
  { intros n x rest s0 (Hp & Hcount).
    destruct (pending_head _ _ _ _ Hp) as [ux Hux].
    exists ux. split; [done|]. split; [done|]. intros Hcx s2.
    split; [done|]. intros Hcs. split; [by apply pending_next|].
    right. split; [|simpl; set_solver].
    destruct Hcount as [Hl|[_ Hno]]; [simpl in Hl; lia|].
    exfalso. apply Hno. revert Hcs. unfold s2, after_user_part.
    by destruct (User.still_in_channels (parted c ux)). }
  assert (Hstart : I (active_users s) s)
    by (split; [by apply pending_start | by left]).
  pose proof (part_loop_rule c I (fun _ => True) Hstep _ _ Hstart) as H.
  unfold outcome. rewrite part_own. unfold bind.
  destruct (for_each (active_users s) (part_loop_body c) s) as [[[]|e|] s'].
  - destruct H as (_ & [Hl|[Hl _]]); simpl in Hl; lia.
  - by destruct H as [-> _].
  - done.
Qed.
End TwoUsers.

(** ** Where channel containment is kept *)

Section Containment.
Import UsersPlugin.

Lemma containment_update s a u cs :
  channel_containment s -> channels s ⊆ cs -> User.channels u ⊆ cs ->
  channel_containment
    (set_objects (<[a:=u]> (objects s)) (set_channels cs s)).
Proof.
  intros Hinv Hcs Hu n b w [Hget Hobj]. unfold get_user in Hget. simpl in *.
  destruct (decide (a = b)) as [<-|Hne].
  - apply list_lookup_insert_Some in Hobj as [(_ & <- & _)|[? _]]; done.
  - rewrite list_lookup_insert_ne in Hobj by done.
    transitivity (channels s); [|done]. by apply (Hinv n b w).
Qed.

Lemma containment_update_same s a u :
  channel_containment s -> User.channels u ⊆ channels s ->
  channel_containment (set_objects (<[a:=u]> (objects s)) s).
Proof.
  intros Hinv Hu.
  by apply (containment_update s a u (channels s)).
Qed.

Lemma containment_remove s k :
  channel_containment s ->
  channel_containment (set_active_users (Dict.remove k (active_users s)) s).
Proof.
  intros Hinv n b w [Hget Hobj]. unfold get_user in Hget. simpl in *.
  apply (Hinv n b w). split; [|done]. unfold get_user.
  destruct (decide (k = n)) as [<-|Hne].
  - by rewrite dict_get_remove_eq in Hget.
  - by rewrite dict_get_remove_ne in Hget.
Qed.

Lemma containment_set_channels s cs :
  channel_containment s -> channels s ⊆ cs ->
  channel_containment (set_channels cs s).
Proof.
  intros Hinv Hcs n b w Ht. transitivity (channels s); [|done].
  by apply (Hinv n b w).
Qed.

Lemma containment_new_user s n u cs :
  wf s -> channel_containment s -> channels s ⊆ cs -> User.channels u ⊆ cs ->
  channel_containment
    (mk (bot s) (identifying_method s) cs
       (Dict.set n (length (objects s)) (active_users s))
       (objects s ++ [u])%list).
Proof.
  intros Hwf Hinv Hcs Hu k b w [Hget Hobj]. unfold get_user in Hget.
  simpl in *. destruct (decide (n = k)) as [<-|Hne].
  - rewrite dict_get_set_eq in Hget. injection Hget as <-.
    rewrite list_lookup_middle in Hobj by done. by injection Hobj as <-.
  - rewrite dict_get_set_ne in Hget by done.
    destruct (wf_valid _ Hwf _ _ Hget) as [w' Hw'].
    rewrite (lookup_app_l_Some _ _ _ _ Hw') in Hobj. injection Hobj as <-.
    transitivity (channels s); [|done]. by apply (Hinv k b w').
Qed.

Lemma containment_rename s old new a u :
  channel_containment s -> tracked s old a u ->
  channel_containment
    (set_active_users (Dict.remove old (Dict.set new a (active_users s)))
       (set_objects (<[a:=User.set_nick new u]> (objects s)) s)).
Proof.
  intros Hinv Hold k b w [Hget Hobj]. unfold get_user in Hget. simpl in *.
  destruct (decide (a = b)) as [<-|Hne].
  - apply list_lookup_insert_Some in Hobj as [(_ & <- & _)|[? _]]; [|done].
    by apply (Hinv old a u).
  - rewrite list_lookup_insert_ne in Hobj by done.
    apply (Hinv k b w). split; [|done]. unfold get_user.
    destruct (decide (old = k)) as [<-|?];
      [by rewrite dict_get_remove_eq in Hget|].
    rewrite dict_get_remove_ne in Hget by done.
    destruct (decide (new = k)) as [<-|?].
    + rewrite dict_get_set_eq in Hget. congruence.
    + by rewrite dict_get_set_ne in Hget.
Qed.

Lemma containment_after_user_part s n a u c :
  channel_containment s -> tracked s n a u ->
  channel_containment (after_user_part n a u c s).
Proof.
  intros Hinv Ht. unfold after_user_part.
  assert (Hp : User.channels (parted c u) ⊆ channels s).
  { transitivity (User.channels u); [simpl; set_solver|].
    by apply (Hinv n a u). }
  destruct (User.still_in_channels (parted c u)).
  - by apply containment_update_same.
  - apply (containment_remove (set_objects _ s)).
    by apply containment_update_same.
Qed.
End Containment.

Section ContainmentHandlers.
Import UsersPlugin.

Lemma join_containment n mask c s :
  wf s -> channel_containment s -> channel_containment (join n mask c s).2.
Proof.
  intros Hwf Hinv. destruct (get_user n s) as [a|] eqn:Hget.
  - destruct (wf_valid _ Hwf _ _ Hget) as [u Hu].
    assert (Ht : tracked s n a u) by done.
    rewrite (join_tracked s n mask c a u Ht). simpl.
    apply containment_update; [done | set_solver |].
    pose proof (Hinv n a u Ht). simpl. set_solver.
  - destruct (decide (identifying_method s = "mask")) as [Hm|Hm].
    + rewrite join_untracked by done. simpl.
      apply containment_new_user; [done | done | set_solver |].
      simpl. set_solver.
    + rewrite join_untracked_misconfigured by done. simpl.
      apply containment_set_channels; [done | set_solver].
Qed.

Lemma containment_reset s : channel_containment (reset_state s).
Proof. intros n a u [Hget _]. done. Qed.

Lemma quit_containment n mask s :
  channel_containment s -> channel_containment (quit n mask s).2.
Proof.
  intros Hinv. destruct (decide (n = Bot.nick (bot s))) as [->|Hne].
  - rewrite quit_own_nick. apply containment_reset.
  - rewrite quit_other by done. simpl.
    destruct (Dict.contains n (active_users s));
      [by apply containment_remove | done].
Qed.

Lemma on_new_nick_containment nick new_nick s :
  wf s -> channel_containment s ->
  channel_containment (on_new_nick nick new_nick s).2.
Proof.
  intros Hwf Hinv.
  destruct (get_user (IrcString.nick nick) s) as [a|] eqn:Hget.
  - destruct (wf_valid _ Hwf _ _ Hget) as [u Hu].
    assert (Ht : tracked s (IrcString.nick nick) a u) by done.
    rewrite (on_new_nick_tracked s nick new_nick a u Ht). simpl.
    by apply containment_rename.
  - by rewrite on_new_nick_untracked.
Qed.

Lemma on_privmsg_containment mask target s :
  wf s -> channel_containment s ->
  channel_containment (on_privmsg mask target s).2.
Proof.
  intros Hwf Hinv. destruct (decide (target ∈ channels s)) as [Hc|Hc];
    [|by rewrite on_privmsg_absent_channel].
  destruct (get_user (IrcString.nick mask) s) as [a|] eqn:Hget.
  - destruct (wf_valid _ Hwf _ _ Hget) as [u Hu].
    assert (Ht : tracked s (IrcString.nick mask) a u) by done.
    rewrite (on_privmsg_known s mask target a u) by done. simpl.
    apply containment_update_same; [done|].
    pose proof (Hinv _ a u Ht). simpl. set_solver.
  - destruct (decide (identifying_method s = "mask")) as [Hm|Hm].
    + rewrite on_privmsg_unknown by done. simpl.
      apply (containment_new_user s); [done | done | done |].
      simpl. set_solver.
    + by rewrite on_privmsg_untracked_misconfigured.
Qed.

Lemma on_who_containment c n username server s :
  wf s -> channel_containment s ->
  channel_containment (on_who c n username server s).2.
Proof.
  intros Hwf Hinv. destruct (decide (c ∈ channels s)) as [Hc|Hc];
    [|by rewrite on_who_absent_channel].
  destruct (get_user n s) as [a|] eqn:Hget.
  - destruct (wf_valid _ Hwf _ _ Hget) as [u Hu].
    assert (Ht : tracked s n a u) by done.
    rewrite (on_who_known s c n username server a u) by done. simpl.
    apply containment_update_same; [done|].
    pose proof (Hinv _ a u Ht). simpl. set_solver.
  - destruct (decide (identifying_method s = "mask")) as [Hm|Hm].
    + rewrite on_who_unknown by done. simpl.
      apply (containment_new_user s); [done | done | done |].
      simpl. set_solver.
    + by rewrite on_who_untracked_misconfigured.
Qed.

Lemma part_tail_containment nick c s :
  wf s -> channel_containment s -> channel_containment (part_tail nick c s).2.
Proof.
  intros Hwf Hinv. destruct (get_user nick s) as [a|] eqn:Hget.
  - destruct (wf_valid _ Hwf _ _ Hget) as [u Hu].
    assert (Ht : tracked s nick a u) by done.
    destruct (decide (c ∈ User.channels u)) as [Hc|Hc].
    + rewrite (part_tail_ok _ _ _ _ _ Ht Hc). simpl.
      by apply containment_after_user_part.
    + by rewrite (part_tail_raise _ _ _ _ _ Ht Hc).
  - by rewrite part_tail_untracked.
Qed.

Lemma tracked_after_user_part_inv s n x ux c k v u :
  tracked s n x ux -> tracked (after_user_part n x ux c s) k v u ->
  (v = x /\ u = parted c ux) \/ (v <> x /\ tracked s k v u).
Proof.
  intros [_ Hx] [Hget Hobj].
  assert (Hget0 : get_user k s = Some v).
  { revert Hget. unfold after_user_part, get_user.
    destruct (User.still_in_channels (parted c ux)); simpl; [done|].
    destruct (decide (n = k)) as [<-|?].
    - by rewrite dict_get_remove_eq.
    - by rewrite dict_get_remove_ne. }
  assert (Hobj0 : <[x:=parted c ux]> (objects s) !! v = Some u).
  { revert Hobj. unfold after_user_part.
    by destruct (User.still_in_channels (parted c ux)). }
  destruct (decide (x = v)) as [<-|Hne].
  - left. apply list_lookup_insert_Some in Hobj0 as [(_ & <- & _)|[? _]]; done.
  - right. rewrite list_lookup_insert_ne in Hobj0 by done. done.
Qed.

Lemma channels_after_user_part s n x ux c :
  channels (after_user_part n x ux c s) = channels s.
Proof.
  unfold after_user_part. by destruct (User.still_in_channels (parted c ux)).
Qed.

(** When the loop of [part] runs to its end, containment holds again. *)
Lemma part_loop_containment c s :
  wf s -> channel_containment s ->
  forall s', for_each (active_users s) (part_loop_body c) s = (Ok tt, s') ->
             wf s' /\ channel_containment s'.
Proof.
  intros Hwf Hinv s' Hrun.
  set (I := fun (items : Dict.t addr) s0 =>
    pending items s0 /\
    (forall k v u, tracked s0 k v u -> c ∈ User.channels u -> (k, v) ∈ items) /\
    (forall k v u, tracked s0 k v u ->
                   User.channels u ⊆ channels s0 ∪ {[c]})).
  assert (Hstep : forall n x rest s0, I ((n, x) :: rest) s0 ->
     exists ux, tracked s0 n x ux /\
       (c ∉ User.channels ux -> True) /\
       (c ∈ User.channels ux ->
        let s2 := after_user_part n x ux c s0 in
        (c ∉ channels s2 -> True) /\
        (c ∈ channels s2 ->
         I rest (set_channels (channels s2 ∖ {[c]}) s2)))).
  { intros n x rest s0 (Hp & Hleft & Hsub).
    destruct (pending_head _ _ _ _ Hp) as [ux Hux].
    exists ux. split; [done|]. split; [done|]. intros Hcx s2.
    split; [done|]. intros Hcs. split; [by apply pending_next|]. split.
    - intros k v u Ht Hcu.
      destruct (tracked_after_user_part_inv _ _ _ _ _ _ _ _ Hux Ht)
        as [[-> ->]|[Hne Ht0]]; [simpl in Hcu; set_solver|].
      specialize (Hleft _ _ _ Ht0 Hcu).
      apply elem_of_cons in Hleft as [[= ? ?]|?]; [congruence | done].
    - intros k v u Ht. simpl. unfold s2. rewrite channels_after_user_part.
      destruct (tracked_after_user_part_inv _ _ _ _ _ _ _ _ Hux Ht)
        as [[-> ->]|[Hne Ht0]].
      + specialize (Hsub _ _ _ Hux). simpl.
        intros y Hy. destruct (decide (y = c)) as [->|?]; set_solver.
      + specialize (Hsub _ _ _ Ht0).
        intros y Hy. destruct (decide (y = c)) as [->|?]; set_solver. }
  assert (Hstart : I (active_users s) s).
  { split; [by apply pending_start|]. split.
    - intros k v u [Hget _] _. by apply dict_get_elem_of.
    - intros k v u Ht. specialize (Hinv _ _ _ Ht). set_solver. }
  pose proof (part_loop_rule c I (fun _ => True) Hstep _ _ Hstart) as H.
  rewrite Hrun in H. destruct H as ((Hwf' & _) & Hleft & Hsub).
  split; [done|]. intros k v u Ht.
  specialize (Hsub _ _ _ Ht). intros y Hy.
  destruct (decide (y = c)) as [->|?]; [|set_solver].
  specialize (Hleft _ _ _ Ht Hy). by apply elem_of_nil in Hleft.
Qed.

Lemma part_containment nick mask c s :
  wf s -> channel_containment s ->
  (part nick mask c s).1 = Ok tt \/ nick <> Bot.nick (bot s) ->
  channel_containment (part nick mask c s).2.
Proof.
  intros Hwf Hinv Hcase.
  destruct (decide (nick = Bot.nick (bot s))) as [->|Hne].
  - destruct Hcase as [Hok|?]; [|done]. revert Hok.
    rewrite part_own. unfold bind.
    destruct (for_each (active_users s) (part_loop_body c) s)
      as [[[]|e|] s'] eqn:Hrun; [|done..].
    intros _. destruct (part_loop_containment c s Hwf Hinv s' Hrun).
    by apply part_tail_containment.
  - rewrite part_other by done. by apply part_tail_containment.
Qed.

(** Containment survives every handler but one: the bot's own departure
    from a channel, when that handler raises. *)
Lemma handle_containment e s :
  wf s -> channel_containment s ->
  outcome (handle e) s = Ok tt \/ ~ own_part e s ->
  channel_containment (exec (handle e) s).
Proof.
  intros Hwf Hinv Hcase. unfold exec, outcome in *.
  destruct e as [m [] c|k tg c|nk nn|m tg|c n u h|]; simpl in *.
  - by apply join_containment.
  - apply part_containment; [done..|]. destruct Hcase; [by left | by right].
  - by apply quit_containment.
  - apply part_containment; [done..|]. destruct Hcase; [by left | by right].
  - by apply on_new_nick_containment.
  - by apply on_privmsg_containment.
  - by apply on_who_containment.
  - apply containment_reset.
Qed.

Lemma reachable_quietly_reachable b s : reachable_quietly b s -> reachable b s.
Proof. induction 1; [by constructor | by constructor]. Qed.

(** As long as no handler has raised, every channel of every tracked user
    is a tracked channel. *)
Lemma reachable_quietly_containment b s :
  reachable_quietly b s -> channel_containment s.
Proof.
  induction 1 as [s Hi|s e Hs IH Hok].
  - rewrite init_ok in Hi. injection Hi as <-. intros n a u [Hget _]. done.
  - apply handle_containment; [|done|by left].
    by apply (reachable_wf b), reachable_quietly_reachable.
Qed.
End ContainmentHandlers.

(** * Further properties of the handlers *)

(** ** Invariants of the tracked records *)

Section TrackedInvariant.
Import UsersPlugin.
Context (b : Bot.t) (R : string -> User.t -> Prop).
Hypothesis R_join : forall n u c, R n u -> R n (User.join c u).
Hypothesis R_parted : forall n u c,
  R n u -> User.still_in_channels (parted c u) = true -> R n (parted c u).
Hypothesis R_rename : forall n n' u, R n u -> R n' (User.set_nick n' u).
Hypothesis R_init : forall mask c,
  R (IrcString.nick mask)
    (User.init mask [c] (IrcString.host mask) (Bot.get_database b)).

Lemma every_tracked_update s n a u u' :
  wf s -> every_tracked R s -> tracked s n a u -> R n u' ->
  every_tracked R (set_objects (<[a:=u']> (objects s)) s).
Proof.
  intros Hwf Hinv [Hn Hu] Hu' k v w [Hget Hobj]. unfold get_user in *.
  simpl in *. destruct (decide (a = v)) as [<-|Hne].
  - apply list_lookup_insert_Some in Hobj as [(_ & <- & _)|[? _]]; [|done].
    by rewrite (wf_alias _ Hwf k n a Hget Hn).
  - rewrite list_lookup_insert_ne in Hobj by done. by apply (Hinv k v w).
Qed.

Lemma every_tracked_remove s k :
  every_tracked R s ->
  every_tracked R (set_active_users (Dict.remove k (active_users s)) s).
Proof.
  intros Hinv n v w [Hget Hobj]. unfold get_user in Hget. simpl in *.
  apply (Hinv n v w). split; [|done]. unfold get_user.
  destruct (decide (k = n)) as [<-|Hne].
  - by rewrite dict_get_remove_eq in Hget.
  - by rewrite dict_get_remove_ne in Hget.
Qed.

Lemma every_tracked_set_channels s cs :
  every_tracked R s -> every_tracked R (set_channels cs s).
Proof. intros Hinv n v w Ht. by apply (Hinv n v w). Qed.

Lemma every_tracked_reset s : every_tracked R (reset_state s).
Proof. intros n a u [Hget _]. done. Qed.

Lemma every_tracked_new_user s n u cs :
  wf s -> every_tracked R s -> R n u ->
  every_tracked R
    (mk (bot s) (identifying_method s) cs
       (Dict.set n (length (objects s)) (active_users s))
       (objects s ++ [u])%list).
Proof.
  intros Hwf Hinv Hu k v w [Hget Hobj]. unfold get_user in Hget.
  simpl in *. destruct (decide (n = k)) as [<-|Hne].
  - rewrite dict_get_set_eq in Hget. injection Hget as <-.
    rewrite list_lookup_middle in Hobj by done. by injection Hobj as <-.
  - rewrite dict_get_set_ne in Hget by done.
    destruct (wf_valid _ Hwf _ _ Hget) as [w' Hw'].
    rewrite (lookup_app_l_Some _ _ _ _ Hw') in Hobj. injection Hobj as <-.
    by apply (Hinv k v w').
Qed.

Lemma every_tracked_rename s old new a u :
  wf s -> every_tracked R s -> tracked s old a u ->
  every_tracked R
    (set_active_users (Dict.remove old (Dict.set new a (active_users s)))
       (set_objects (<[a:=User.set_nick new u]> (objects s)) s)).
Proof.
  intros Hwf Hinv Hold k v w [Hget Hobj]. unfold get_user in Hget.
  simpl in *.
  destruct (decide (old = k)) as [<-|Hok];
    [by rewrite dict_get_remove_eq in Hget|].
  rewrite dict_get_remove_ne in Hget by done.
  destruct (decide (new = k)) as [<-|Hnk].
  - rewrite dict_get_set_eq in Hget. injection Hget as <-.
    apply list_lookup_insert_Some in Hobj as [(_ & <- & _)|[? _]]; [|done].
    apply R_rename with old. by apply (Hinv old a u).
  - rewrite dict_get_set_ne in Hget by done.
    assert (Hne : a <> v).
    { intros <-. apply Hok. apply (wf_alias _ Hwf old k a); [apply Hold|done]. }
    rewrite list_lookup_insert_ne in Hobj by done. by apply (Hinv k v w).
Qed.

Lemma every_tracked_after_user_part s n a u c :
  wf s -> every_tracked R s -> tracked s n a u ->
  every_tracked R (after_user_part n a u c s).
Proof.
  intros Hwf Hinv Ht. unfold after_user_part.
  destruct (User.still_in_channels (parted c u)) eqn:Hstill.
  - apply every_tracked_update with n u; [done..|].
    apply R_parted; [by apply (Hinv n a u) | done].
  - intros k v w [Hget Hobj]. unfold get_user in Hget. simpl in *.
    destruct (decide (n = k)) as [<-|Hnk];
      [by rewrite dict_get_remove_eq in Hget|].
    rewrite dict_get_remove_ne in Hget by done.
    assert (Hne : a <> v).
    { intros <-. apply Hnk. apply (wf_alias _ Hwf n k a); [apply Ht|done]. }
    rewrite list_lookup_insert_ne in Hobj by done. by apply (Hinv k v w).
Qed.

Lemma every_tracked_part_tail nick c s :
  wf s -> every_tracked R s -> every_tracked R (part_tail nick c s).2.
Proof.
  intros Hwf Hinv. destruct (get_user nick s) as [a|] eqn:Hget.
  - destruct (wf_valid _ Hwf _ _ Hget) as [u Hu].
    assert (Ht : tracked s nick a u) by done.
    destruct (decide (c ∈ User.channels u)) as [Hc|Hc].
    + rewrite (part_tail_ok _ _ _ _ _ Ht Hc). simpl.
      by apply every_tracked_after_user_part.
    + by rewrite (part_tail_raise _ _ _ _ _ Ht Hc).
  - by rewrite part_tail_untracked.
Qed.

Lemma every_tracked_part_loop c s :
  wf s -> every_tracked R s ->
  wf (for_each (active_users s) (part_loop_body c) s).2 /\
  every_tracked R (for_each (active_users s) (part_loop_body c) s).2.
Proof.
  intros Hwf Hinv.
  set (I := fun (items : Dict.t addr) s0 =>
              pending items s0 /\ every_tracked R s0).
  set (E := fun s0 => wf s0 /\ every_tracked R s0).
  assert (Hstep : forall n x rest s0, I ((n, x) :: rest) s0 ->
     exists ux, tracked s0 n x ux /\
       (c ∉ User.channels ux -> E s0) /\
       (c ∈ User.channels ux ->
        let s2 := after_user_part n x ux c s0 in
        (c ∉ channels s2 -> E s2) /\
        (c ∈ channels s2 ->
         I rest (set_channels (channels s2 ∖ {[c]}) s2)))).
  { intros n x rest s0 (Hp & Hinv0).
    destruct (pending_head _ _ _ _ Hp) as [ux Hux].
    assert (Hwf0 : wf s0) by apply Hp.
    exists ux. split; [done|]. split; [by intros _; split|]. intros Hcx s2.
    assert (Hinv2 : every_tracked R s2)
      by (by apply every_tracked_after_user_part).
    split; [intros _; split; [by apply wf_after_user_part | done]|].
    intros _. split; [by apply pending_next|].
    by apply every_tracked_set_channels. }
  assert (Hstart : I (active_users s) s)
    by (split; [by apply pending_start | done]).
  pose proof (part_loop_rule c I E Hstep _ _ Hstart) as H.
  destruct (for_each (active_users s) (part_loop_body c) s) as [[[]|e|] s'];
    simpl.
  - destruct H as [[? _] ?]. done.
  - destruct H as [_ [? ?]]. done.
  - done.
Qed.

Lemma every_tracked_part nick mask c s :
  wf s -> every_tracked R s -> every_tracked R (part nick mask c s).2.
Proof.
  intros Hwf Hinv. destruct (decide (nick = Bot.nick (bot s))) as [->|Hne].
  - rewrite part_own. unfold bind.
    destruct (every_tracked_part_loop c s Hwf Hinv) as [Hwf' Hinv'].
    destruct (for_each (active_users s) (part_loop_body c) s)
      as [[[]|e|] s']; simpl in *; [|done..].
    by apply every_tracked_part_tail.
  - rewrite part_other by done. by apply every_tracked_part_tail.
Qed.

Lemma every_tracked_handle e s :
  bot s = b -> wf s -> every_tracked R s ->
  every_tracked R (exec (handle e) s).
Proof.
  intros Hb Hwf Hinv. unfold exec.
  destruct e as [m [] c|k tg c|nk nn|m tg|c n u h|]; simpl.
  - destruct (get_user (IrcString.nick m) s) as [a|] eqn:Hget.
    + destruct (wf_valid _ Hwf _ _ Hget) as [u Hu].
      assert (Ht : tracked s (IrcString.nick m) a u) by done.
      rewrite (join_tracked s _ m c a u Ht). simpl.
      apply (every_tracked_update (set_channels _ s)) with (IrcString.nick m) u;
        [by apply wf_set_channels | by apply every_tracked_set_channels
        | done |].
      apply R_join. by apply (Hinv _ a u).
    + destruct (decide (identifying_method s = "mask")) as [Hm|Hm].
      * rewrite join_untracked by done. simpl.
        apply every_tracked_new_user; [done..|].
        apply R_join. rewrite Hb. apply R_init.
      * rewrite join_untracked_misconfigured by done. simpl.
        by apply every_tracked_set_channels.
  - by apply every_tracked_part.
  - destruct (decide (IrcString.nick m = Bot.nick (bot s))) as [->|Hne].
    + rewrite quit_own_nick. apply every_tracked_reset.
    + rewrite quit_other by done. simpl.
      destruct (Dict.contains _ (active_users s));
        [by apply every_tracked_remove | done].
  - by apply every_tracked_part.
  - destruct (get_user (IrcString.nick nk) s) as [a|] eqn:Hget.
    + destruct (wf_valid _ Hwf _ _ Hget) as [u Hu].
      assert (Ht : tracked s (IrcString.nick nk) a u) by done.
      rewrite (on_new_nick_tracked s nk nn a u Ht). simpl.
      by apply every_tracked_rename.
    + by rewrite on_new_nick_untracked.
  - destruct (decide (tg ∈ channels s)) as [Hc|Hc];
      [|by rewrite on_privmsg_absent_channel].
    destruct (get_user (IrcString.nick m) s) as [a|] eqn:Hget.
    + destruct (wf_valid _ Hwf _ _ Hget) as [u Hu].
      assert (Ht : tracked s (IrcString.nick m) a u) by done.
      rewrite (on_privmsg_known s m tg a u) by done. simpl.
      apply every_tracked_update with (IrcString.nick m) u; [done..|].
      apply R_join. by apply (Hinv _ a u).
    + destruct (decide (identifying_method s = "mask")) as [Hm|Hm].
      * rewrite on_privmsg_unknown by done. simpl.
        apply (every_tracked_new_user s); [done..|]. rewrite Hb. apply R_init.
      * by rewrite on_privmsg_untracked_misconfigured.
  - destruct (decide (c ∈ channels s)) as [Hc|Hc];
      [|by rewrite on_who_absent_channel].
    destruct (get_user n s) as [a|] eqn:Hget.
    + destruct (wf_valid _ Hwf _ _ Hget) as [w Hw].
      assert (Ht : tracked s n a w) by done.
      rewrite (on_who_known s c n u h a w) by done. simpl.
      apply every_tracked_update with n w; [done..|].
      apply R_join. by apply (Hinv _ a w).
    + destruct (decide (identifying_method s = "mask")) as [Hm|Hm].
      * rewrite on_who_unknown by done. simpl.
        apply (every_tracked_new_user s); [done..|]. rewrite Hb.
        apply (R_init (IrcString.format n u h)).
      * by rewrite on_who_untracked_misconfigured.
  - apply every_tracked_reset.
Qed.

Lemma every_tracked_reachable s : reachable b s -> every_tracked R s.
Proof.
  induction 1 as [s Hi|s e Hs IH].
  - rewrite init_ok in Hi. injection Hi as <-. intros n a u [Hget _]. done.
  - apply every_tracked_handle; [|by apply (reachable_wf b)|done].
    apply reachable_configuration in Hs. by injection Hs.
Qed.
End TrackedInvariant.

Lemma alice_and_bob_reachable : reachable sample_bot alice_and_bob.
Proof. apply reachable_run. constructor. reflexivity. Qed.

Lemma alice_tracked : tracked alice_and_bob "alice" 0 alice_record.
Proof. split; vm_compute; reflexivity. Qed.

Lemma bob_tracked : tracked alice_and_bob "bob" 1 bob_record.
Proof. split; vm_compute; reflexivity. Qed.

Lemma still_in_channels_elem (u : User.t) (c : string) :
  c ∈ User.channels u -> User.still_in_channels u = true.
Proof.
  intros Hc. unfold User.still_in_channels. apply bool_decide_eq_true_2.
  assert (size (User.channels u) <> 0); [|lia].
  apply size_non_empty_iff. set_solver.
Qed.

Lemma reachable_nick_key b s n a u :
  reachable b s -> tracked s n a u -> User.nick u = n.
Proof.
  intros Hs Ht.
  by apply (every_tracked_reachable b (fun n u => User.nick u = n)) in Ht.
Qed.





(** X3. In every reachable state each tracked user is in at least one
    channel: a record whose last channel goes is deleted by the handler that
    removes it, also when that handler goes on to raise. *)
Theorem tracked_user_has_channel
    (b : Bot.t) (s : UsersPlugin.t) (n : string) (a : UsersPlugin.addr)
    (u : User.t) :
  reachable b s -> tracked s n a u ->
  User.still_in_channels u = true /\ exists c, c ∈ User.channels u.
Proof.
  intros Hs Ht.
  assert (H : User.still_in_channels u = true).
  { apply (every_tracked_reachable b
             (fun _ u => User.still_in_channels u = true)) with s n a; try done.
    - intros _ u0 c _. apply still_in_channels_elem with c. simpl. set_solver.
    - intros mask c. apply still_in_channels_elem with c. simpl. set_solver. }
  split; [exact H|]. apply size_pos_elem_of.
  by apply bool_decide_eq_true_1 in H.
Qed.

Lemma tracked_user_has_channel_witness :
  reachable sample_bot alice_and_bob /\
  tracked alice_and_bob "alice" 0 alice_record /\
  User.still_in_channels alice_record = true.
Proof.
  split; [exact alice_and_bob_reachable|]. split; [exact alice_tracked|].
  exact (proj1 (tracked_user_has_channel _ _ _ _ _
                  alice_and_bob_reachable alice_tracked)).
Defined.

(** X4. The identity key of every tracked record is its host, and its
    settings store is the bot's database.  So two tracked users with the
    same host, whatever their nicks, read the same settings: every
    [get_setting] answers alike. *)
Theorem settings_follow_host
    (b : Bot.t) (s : UsersPlugin.t) (n1 n2 : string)
    (a1 a2 : UsersPlugin.addr) (u1 u2 : User.t) :
  reachable b s -> tracked s n1 a1 u1 -> tracked s n2 a2 u2 ->
  User.getid u1 = User.host u1 /\
  User.database u1 = Bot.get_database b /\
  (User.host u1 = User.host u2 ->
   User.get_settings u1 = User.get_settings u2 /\
   forall setting default,
     User.get_setting u1 setting default = User.get_setting u2 setting default).
Proof.
  intros Hs H1 H2.
  set (R := fun (_ : string) u =>
              User._id u = User.host u /\
              User.database u = Bot.get_database b).
  assert (HR : every_tracked R s)
    by (by apply (every_tracked_reachable b R)).
  destruct (HR _ _ _ H1) as [Hid1 Hdb1], (HR _ _ _ H2) as [Hid2 Hdb2].
  split; [exact Hid1|]. split; [exact Hdb1|]. intros Hh.
  assert (E : User.get_settings u1 = User.get_settings u2).
  { unfold User.get_settings. by rewrite Hdb1, Hdb2, Hid1, Hid2, Hh. }
  split; [exact E|]. intros setting default.
  unfold User.get_setting. by rewrite E.
Qed.

Lemma settings_follow_host_witness :
  reachable sample_bot alice_and_bob /\
  tracked alice_and_bob "alice" 0 alice_record /\
  tracked alice_and_bob "bob" 1 bob_record /\
  User.getid alice_record = User.host alice_record.
Proof.
  split; [exact alice_and_bob_reachable|]. split; [exact alice_tracked|].
  split; [exact bob_tracked|].
  exact (proj1 (settings_follow_host _ _ _ _ _ _ _ _
                  alice_and_bob_reachable alice_tracked bob_tracked)).
Defined.

(** ** What each handler does to the registry *)

Section Effects.
Import UsersPlugin.

Lemma still_parted_false u c :
  c ∈ User.channels u ->
  User.still_in_channels (parted c u) = false <-> User.channels u = {[c]}.
Proof.
  intros Hc. unfold User.still_in_channels. simpl.
  rewrite bool_decide_eq_false. split.
  - intros Hsize.
    assert (H0 : size (User.channels u ∖ {[c]}) = 0) by lia.
    apply size_empty_iff in H0. apply set_eq. intros x.
    rewrite elem_of_singleton. split; [|by intros ->].
    intros Hx. destruct (decide (x = c)) as [|Hxc]; [done|].
    exfalso. apply (not_elem_of_empty (C:=gset string) x). rewrite <- H0.
    apply elem_of_difference. split; [done|]. by rewrite elem_of_singleton.
  - intros ->. assert (E : ({[c]} ∖ {[c]} : gset string) = ∅).
    { apply set_eq. intros x. rewrite elem_of_difference. set_solver. }
    rewrite E, size_empty. lia.
Qed.

Lemma part_other_ok s nick mask c a u :
  nick <> Bot.nick (bot s) -> tracked s nick a u -> c ∈ User.channels u ->
  part nick mask c s = (Ok tt, after_user_part nick a u c s).
Proof.
  intros Hne Ht Hc. rewrite part_other by done. by apply part_tail_ok.
Qed.

Lemma join_channels n mask c s :
  channels (join n mask c s).2 = channels s ∪ {[c]}.
Proof.
  unfold join, bind at 1, channels_add, modify.
  match goal with
  | |- channels (?m ?s0).2 = _ =>
      assert (Hk : keeps channels m) by (repeat keeps_step);
      by rewrite (Hk s0)
  end.
Qed.
End Effects.



(** X6. A quit of a nickname other than the bot's never raises and forgets
    that nickname, whatever channels it was in; every other nickname, the
    tracked channels and the records themselves are as before.  For a
    nickname that is not tracked nothing changes. *)
Theorem quit_forgets_user
    (s : UsersPlugin.t) (n : string) (mask : IrcString.t) :
  n <> Bot.nick (UsersPlugin.bot s) ->
  let s' := UsersPlugin.exec (UsersPlugin.quit n mask) s in
  UsersPlugin.outcome (UsersPlugin.quit n mask) s = Ok tt /\
  UsersPlugin.get_user n s' = None /\
  (forall n', n' <> n ->
     UsersPlugin.get_user n' s' = UsersPlugin.get_user n' s) /\
  UsersPlugin.channels s' = UsersPlugin.channels s /\
  UsersPlugin.objects s' = UsersPlugin.objects s /\
  (UsersPlugin.get_user n s = None -> s' = s).
Proof.
  intros Hne s'. subst s'. unfold UsersPlugin.outcome, UsersPlugin.exec.
  rewrite quit_other by done. simpl. split; [done|].
  unfold UsersPlugin.get_user, Dict.contains.
  destruct (Dict.get n (UsersPlugin.active_users s)) as [a|] eqn:Hget; simpl.
  - split; [apply dict_get_remove_eq|].
    split; [intros n' Hn'; by apply dict_get_remove_ne|]. done.
  - done.
Qed.

Lemma quit_forgets_user_witness :
  "bob" <> Bot.nick (UsersPlugin.bot alice_and_bob) /\
  UsersPlugin.get_user "bob"
    (UsersPlugin.exec (UsersPlugin.quit "bob" (mask_of "bob")) alice_and_bob)
  = None.
Proof.
  assert (Hne : "bob" <> Bot.nick (UsersPlugin.bot alice_and_bob))
    by discriminate.
  split; [exact Hne|].
  exact (proj1 (proj2 (quit_forgets_user _ _ (mask_of "bob") Hne))).
Defined.

(** X7. With the supported identification strategy a join returns
    normally, adds its channel to the tracked ones, and leaves the nickname
    tracked by a record that lists the channel; other nicknames are as
    before.  A nickname seen for the first time gets a new object whose
    channels are exactly that one, whose nick and host are those of the mask
    and whose identity key is the host. *)
Theorem join_tracks_user
    (s : UsersPlugin.t) (n : string) (mask : IrcString.t) (c : string) :
  wf s -> UsersPlugin.identifying_method s = "mask" ->
  let s' := UsersPlugin.exec (UsersPlugin.join n mask c) s in
  UsersPlugin.outcome (UsersPlugin.join n mask c) s = Ok tt /\
  UsersPlugin.channels s' = UsersPlugin.channels s ∪ {[c]} /\
  (exists a u, tracked s' n a u /\ c ∈ User.channels u) /\
  (forall n', n' <> n ->
     UsersPlugin.get_user n' s' = UsersPlugin.get_user n' s) /\
  (UsersPlugin.get_user n s = None ->
   exists u, tracked s' n (length (UsersPlugin.objects s)) u /\
     User.channels u = {[c]} /\
     User.nick u = IrcString.nick mask /\
     User.host u = IrcString.host mask /\
     User.getid u = IrcString.host mask).
Proof.
  intros Hwf Hm s'. subst s'. unfold UsersPlugin.outcome, UsersPlugin.exec.
  split; [|split; [apply join_channels|]].
  - destruct (UsersPlugin.get_user n s) as [a|] eqn:Hget.
    + destruct (wf_valid _ Hwf _ _ Hget) as [u Hu].
      by rewrite (join_tracked s n mask c a u).
    + by rewrite join_untracked.
  - destruct (UsersPlugin.get_user n s) as [a|] eqn:Hget.
    + destruct (wf_valid _ Hwf _ _ Hget) as [u Hu].
      rewrite (join_tracked s n mask c a u) by done. simpl.
      split; [|split; [done|done]].
      exists a, (User.join c u). split; [|simpl; set_solver].
      split; [exact Hget|]. simpl. apply list_lookup_insert_eq.
      by apply lookup_lt_Some with u.
    + rewrite join_untracked by done. simpl.
      set (u := User.join c _).
      assert (Ht : tracked
                (UsersPlugin.mk (UsersPlugin.bot s)
                   (UsersPlugin.identifying_method s)
                   (UsersPlugin.channels s ∪ {[c]})
                   (Dict.set n (length (UsersPlugin.objects s))
                      (UsersPlugin.active_users s))
                   (UsersPlugin.objects s ++ [u])%list)
                n (length (UsersPlugin.objects s)) u).
      { split; [apply dict_get_set_eq | by apply list_lookup_middle]. }
      split; [exists (length (UsersPlugin.objects s)), u;
              split; [exact Ht | simpl; set_solver]|].
      split; [intros n' Hn'; unfold UsersPlugin.get_user; simpl;
              by apply dict_get_set_ne|].
      intros _. exists u. split; [exact Ht|].
      split; [simpl; set_solver | done].
Qed.

Lemma join_tracks_user_witness :
  wf alice_and_bob /\
  UsersPlugin.identifying_method alice_and_bob = "mask" /\
  UsersPlugin.outcome (UsersPlugin.join "carol" (mask_of "carol") "#b")
    alice_and_bob = Ok tt.
Proof.
  assert (Hwf : wf alice_and_bob)
    by exact (reachable_wf _ _ alice_and_bob_reachable).
  assert (Hm : UsersPlugin.identifying_method alice_and_bob = "mask")
    by reflexivity.
  split; [exact Hwf|]. split; [exact Hm|].
  exact (proj1 (join_tracks_user _ "carol" (mask_of "carol") "#b" Hwf Hm)).
Defined.

Lemma tracked_new_user (s : UsersPlugin.t) (n : string) (u : User.t) :
  tracked
    (UsersPlugin.set_active_users
       (Dict.set n (length (UsersPlugin.objects s)) (UsersPlugin.active_users s))
       (UsersPlugin.set_objects (UsersPlugin.objects s ++ [u])%list s))
    n (length (UsersPlugin.objects s)) u.
Proof. split; [apply dict_get_set_eq | by apply list_lookup_middle]. Qed.

Lemma tracked_updated (s : UsersPlugin.t) (n : string) (a : UsersPlugin.addr)
    (u u' : User.t) :
  tracked s n a u ->
  tracked (UsersPlugin.set_objects (<[a:=u']> (UsersPlugin.objects s)) s) n a u'.
Proof.
  intros [Hget Hobj]. split; [exact Hget|]. simpl.
  apply list_lookup_insert_eq. by apply lookup_lt_Some with u.
Qed.

(** X8. A message is how users are discovered lazily.  To a target that is
    not a tracked channel (a channel the bot is not in, or the bot itself)
    it changes nothing.  To a tracked channel, with the supported strategy,
    it returns normally, leaves the tracked channels as they are, and the
    sender ends up tracked with the channel in their record; a sender not
    seen before gets a new record in exactly that channel, with the mask's
    host as host and identity key. *)
Theorem privmsg_discovers_user
    (s : UsersPlugin.t) (mask : IrcString.t) (target : string) :
  wf s -> UsersPlugin.identifying_method s = "mask" ->
  let s' := UsersPlugin.exec (UsersPlugin.on_privmsg mask target) s in
  let n := IrcString.nick mask in
  UsersPlugin.outcome (UsersPlugin.on_privmsg mask target) s = Ok tt /\
  UsersPlugin.channels s' = UsersPlugin.channels s /\
  (target ∉ UsersPlugin.channels s -> s' = s) /\
  (target ∈ UsersPlugin.channels s ->
   (exists a u, tracked s' n a u /\ target ∈ User.channels u) /\
   (forall n', n' <> n ->
      UsersPlugin.get_user n' s' = UsersPlugin.get_user n' s) /\
   (UsersPlugin.get_user n s = None ->
    exists u, tracked s' n (length (UsersPlugin.objects s)) u /\
      User.channels u = {[target]} /\
      User.host u = IrcString.host mask /\
      User.getid u = IrcString.host mask)).
Proof.
  intros Hwf Hm s' n. subst s' n.
  unfold UsersPlugin.outcome, UsersPlugin.exec.
  destruct (decide (target ∈ UsersPlugin.channels s)) as [Hc|Hc];
    [|by rewrite on_privmsg_absent_channel].
  destruct (UsersPlugin.get_user (IrcString.nick mask) s) as [a|] eqn:Hget.
  - destruct (wf_valid _ Hwf _ _ Hget) as [u Hu].
    assert (Ht : tracked s (IrcString.nick mask) a u) by done.
    rewrite (on_privmsg_known s mask target a u Hc Ht). simpl.
    split; [done|]. split; [done|]. split; [done|]. intros _.
    split; [|done]. exists a, (User.join target u).
    split; [by apply tracked_updated with u | simpl; set_solver].
  - rewrite on_privmsg_unknown by done. simpl.
    split; [done|]. split; [done|]. split; [done|]. intros _.
    set (u := User.init _ _ _ _).
    split; [exists (length (UsersPlugin.objects s)), u;
            split; [apply tracked_new_user | simpl; set_solver]|].
    split; [intros n' Hn'; unfold UsersPlugin.get_user; simpl;
            by apply dict_get_set_ne|].
    intros _. exists u. split; [apply tracked_new_user|].
    split; [simpl; set_solver | done].
Qed.

Lemma privmsg_discovers_user_witness :
  wf alice_and_bob /\
  UsersPlugin.identifying_method alice_and_bob = "mask" /\
  UsersPlugin.outcome (UsersPlugin.on_privmsg (mask_of "carol") "#b")
    alice_and_bob = Ok tt.
Proof.
  assert (Hwf : wf alice_and_bob)
    by exact (reachable_wf _ _ alice_and_bob_reachable).
  assert (Hm : UsersPlugin.identifying_method alice_and_bob = "mask")
    by reflexivity.
  split; [exact Hwf|]. split; [exact Hm|].
  exact (proj1 (privmsg_discovers_user _ (mask_of "carol") "#b" Hwf Hm)).
Defined.



(** X10. Renaming a tracked nickname onto another tracked nickname
    replaces the latter's record: the new nickname leads to the renamed
    user's object, the old nickname is gone, the object the new nickname
    used to lead to is reachable from no nickname, and every other nickname
    is as before. *)
Theorem rename_onto_tracked_nick_replaces
    (s : UsersPlugin.t) (nick : IrcString.t) (new_nick : string)
    (a a' : UsersPlugin.addr) (u u' : User.t) :
  wf s -> tracked s (IrcString.nick nick) a u -> tracked s new_nick a' u' ->
  IrcString.nick nick <> new_nick ->
  let s' := UsersPlugin.exec (UsersPlugin.on_new_nick nick new_nick) s in
  UsersPlugin.outcome (UsersPlugin.on_new_nick nick new_nick) s = Ok tt /\
  tracked s' new_nick a (User.set_nick new_nick u) /\
  UsersPlugin.get_user (IrcString.nick nick) s' = None /\
  (forall k, UsersPlugin.get_user k s' <> Some a') /\
  (forall k, k <> IrcString.nick nick -> k <> new_nick ->
     UsersPlugin.get_user k s' = UsersPlugin.get_user k s) /\
  UsersPlugin.channels s' = UsersPlugin.channels s.
Proof.
  intros Hwf Hold Hnew Hne s'. subst s'.
  unfold UsersPlugin.outcome, UsersPlugin.exec.
  rewrite (on_new_nick_tracked _ _ _ _ _ Hold). simpl.
  assert (Haa : a <> a').
  { intros <-. apply Hne.
    apply (wf_alias _ Hwf _ _ a); [apply Hold | apply Hnew]. }
  assert (Hlook : forall k,
    UsersPlugin.get_user k
      (UsersPlugin.set_active_users
         (Dict.remove (IrcString.nick nick)
            (Dict.set new_nick a (UsersPlugin.active_users s)))
         (UsersPlugin.set_objects
            (<[a:=User.set_nick new_nick u]> (UsersPlugin.objects s)) s))
    = if decide (k = IrcString.nick nick) then None
      else if decide (k = new_nick) then Some a
      else UsersPlugin.get_user k s).
  { intros k. unfold UsersPlugin.get_user. simpl.
    destruct (decide (k = IrcString.nick nick)) as [->|?];
      [apply dict_get_remove_eq|].
    rewrite dict_get_remove_ne by done.
    destruct (decide (k = new_nick)) as [->|?]; [apply dict_get_set_eq|].
    by rewrite dict_get_set_ne. }
  split; [done|]. split.
  { split.
    - rewrite Hlook. rewrite decide_False by done. by rewrite decide_True.
    - simpl. apply list_lookup_insert_eq.
      destruct Hold as [_ Hobj]. by apply lookup_lt_Some with u. }
  split; [rewrite Hlook; by rewrite decide_True|].
  split.
  { intros k. rewrite Hlook.
    destruct (decide (k = IrcString.nick nick)) as [|Hko]; [done|].
    destruct (decide (k = new_nick)) as [|Hkn]; [congruence|].
    intros Hk. apply Hkn.
    apply (wf_alias _ Hwf _ _ a'); [done | apply Hnew]. }
  split; [|done]. intros k Hk1 Hk2. rewrite Hlook.
  by rewrite !decide_False.
Qed.

Lemma rename_onto_tracked_nick_replaces_witness :
  wf alice_and_bob /\
  tracked alice_and_bob "alice" 0 alice_record /\
  tracked alice_and_bob "bob" 1 bob_record /\
  tracked (UsersPlugin.exec (UsersPlugin.on_new_nick (mask_of "alice") "bob")
             alice_and_bob) "bob" 0 (User.set_nick "bob" alice_record).
Proof.
  assert (Hwf : wf alice_and_bob)
    by exact (reachable_wf _ _ alice_and_bob_reachable).
  assert (Ha : tracked alice_and_bob (IrcString.nick (mask_of "alice")) 0
                 alice_record) by exact alice_tracked.
  assert (Hne : IrcString.nick (mask_of "alice") <> "bob") by discriminate.
  split; [exact Hwf|]. split; [exact alice_tracked|].
  split; [exact bob_tracked|].
  exact (proj1 (proj2 (rename_onto_tracked_nick_replaces _ (mask_of "alice")
                         "bob" _ _ _ _ Hwf Ha bob_tracked Hne))).
Defined.

(** ** The tracked channels *)

Section ChannelsFrame.
Import UsersPlugin.

Lemma shrinks_of_keeps {A} (m : M A) : keeps channels m -> shrinks_channels m.
Proof. intros Hk s. by rewrite Hk. Qed.

Lemma shrinks_bind {A B} (m : M A) (k : A -> M B) :
  shrinks_channels m -> (forall a, shrinks_channels (k a)) ->
  shrinks_channels (bind m k).
Proof.
  intros Hm Hk s. unfold bind. specialize (Hm s).
  destruct (m s) as [[a|e|] s0]; simpl in *; [|done..].
  transitivity (channels s0); [apply Hk | done].
Qed.

Lemma shrinks_for_each {A} (l : list A) (body : A -> M unit) :
  (forall x, shrinks_channels (body x)) -> shrinks_channels (for_each l body).
Proof.
  intros Hb. induction l as [|x l IH]; simpl; [by intros s|].
  apply shrinks_bind; [apply Hb | intros _; apply IH].
Qed.

Lemma shrinks_channels_remove c : shrinks_channels (channels_remove c).
Proof.
  intros s. unfold channels_remove.
  destruct (decide (c ∈ channels s)); simpl; set_solver.
Qed.

Lemma shrinks_part_loop_body c item : shrinks_channels (part_loop_body c item).
Proof.
  destruct item as [n a]. unfold part_loop_body.
  apply shrinks_bind; [apply shrinks_of_keeps; repeat keeps_step|]. intros _.
  apply shrinks_bind; [apply shrinks_of_keeps; repeat keeps_step|].
  intros still.
  apply shrinks_bind; [apply shrinks_of_keeps; repeat keeps_step|]. intros _.
  apply shrinks_channels_remove.
Qed.

Lemma keeps_channels_part_tail nick c : keeps channels (part_tail nick c).
Proof. unfold part_tail. repeat keeps_step. Qed.

Lemma part_channels_shrink nick mask c : shrinks_channels (part nick mask c).
Proof.
  intros s. destruct (decide (nick = Bot.nick (bot s))) as [->|Hne].
  - rewrite part_own.
    apply (shrinks_bind (for_each (active_users s) (part_loop_body c))
             (fun _ => part_tail (Bot.nick (bot s)) c)).
    + apply shrinks_for_each, shrinks_part_loop_body.
    + intros _. apply shrinks_of_keeps, keeps_channels_part_tail.
  - rewrite part_other by done. by rewrite keeps_channels_part_tail.
Qed.

Lemma part_other_channels nick mask c s :
  nick <> Bot.nick (bot s) -> channels (part nick mask c s).2 = channels s.
Proof.
  intros Hne. rewrite part_other by done. apply keeps_channels_part_tail.
Qed.

Lemma keeps_channels_on_new_nick nick new_nick :
  keeps channels (on_new_nick nick new_nick).
Proof. unfold on_new_nick. repeat keeps_step. Qed.

Lemma keeps_channels_on_privmsg mask target :
  keeps channels (on_privmsg mask target).
Proof. unfold on_privmsg. repeat keeps_step. Qed.

Lemma keeps_channels_on_who c n u h : keeps channels (on_who c n u h).
Proof. unfold on_who. repeat keeps_step. Qed.
End ChannelsFrame.

(** X11. Which events change the set of tracked channels.  A join adds
    its channel and no event adds any other: messages, WHO replies, nick
    changes, quits and parts never make a channel tracked.  And only a lost
    connection, the bot's own quit and the bot's own part or kick can take a
    channel away: after any other event the set is the old one, plus the
    joined channel for a join, also when the handler raised. *)
Theorem tracked_channels_frame (e : event) (s : UsersPlugin.t) :
  UsersPlugin.channels (UsersPlugin.exec (handle e) s)
  ⊆ UsersPlugin.channels s ∪ joined_channel e /\
  (~ drops_channels e s ->
   UsersPlugin.channels (UsersPlugin.exec (handle e) s)
   = UsersPlugin.channels s ∪ joined_channel e).
Proof.
  unfold UsersPlugin.exec.
  destruct e as [m [] c|k tg c|nk nn|m tg|c n u h|]; simpl.
  - rewrite join_channels. done.
  - split; [pose proof (part_channels_shrink (IrcString.nick m) m c s);
            set_solver|].
    intros Hne. rewrite part_other_channels by done. set_solver.
  - destruct (decide (IrcString.nick m = Bot.nick (UsersPlugin.bot s)))
      as [->|Hne].
    + rewrite quit_own_nick. simpl. split; [set_solver | done].
    + rewrite quit_other by done. simpl.
      assert (E : UsersPlugin.channels
                    (if Dict.contains (IrcString.nick m)
                          (UsersPlugin.active_users s)
                     then UsersPlugin.set_active_users
                            (Dict.remove (IrcString.nick m)
                               (UsersPlugin.active_users s)) s
                     else s) = UsersPlugin.channels s)
        by (by destruct (Dict.contains _ _)).
      rewrite E. set_solver.
  - unfold UsersPlugin.on_kick.
    split; [pose proof (part_channels_shrink (IrcString.nick tg) tg c s);
            set_solver|].
    intros Hne. rewrite part_other_channels by done. set_solver.
  - rewrite keeps_channels_on_new_nick. set_solver.
  - rewrite keeps_channels_on_privmsg. set_solver.
  - rewrite keeps_channels_on_who. set_solver.
  - split; [set_solver | done].
Qed.

Lemma tracked_channels_frame_witness :
  ~ drops_channels (Privmsg (mask_of "carol") "#b") alice_and_bob /\
  UsersPlugin.channels
    (UsersPlugin.exec (handle (Privmsg (mask_of "carol") "#b")) alice_and_bob)
  = UsersPlugin.channels alice_and_bob ∪ ∅.
Proof.
  assert (H : ~ drops_channels (Privmsg (mask_of "carol") "#b") alice_and_bob)
    by (intros []).
  split; [exact H|].
  exact (proj2 (tracked_channels_frame (Privmsg (mask_of "carol") "#b")
                  alice_and_bob) H).
Defined.

(** ** Handlers that raise *)

(** X12. Apart from a join and the bot's own departure, an event whose
    handler does not return normally is dropped without trace: the handler
    raised an exception and the state is exactly the state before the
    event. *)
Theorem failed_event_changes_nothing (e : event) (s : UsersPlugin.t) :
  wf s -> is_join e = false -> ~ own_part e s ->
  UsersPlugin.outcome (handle e) s <> Ok tt ->
  UsersPlugin.exec (handle e) s = s /\
  exists ex, UsersPlugin.outcome (handle e) s = Raise ex.
Proof.
  intros Hwf Hj Hown. unfold UsersPlugin.outcome, UsersPlugin.exec.
  assert (Htail : forall nick c,
    (part_tail nick c s).1 <> Ok tt ->
    (part_tail nick c s).2 = s /\ exists ex, (part_tail nick c s).1 = Raise ex).
  { intros nick c.
    destruct (UsersPlugin.get_user nick s) as [a|] eqn:Hget.
    - destruct (wf_valid _ Hwf _ _ Hget) as [u Hu].
      assert (Ht : tracked s nick a u) by done.
      destruct (decide (c ∈ User.channels u)) as [Hc|Hc].
      + by rewrite (part_tail_ok _ _ _ _ _ Ht Hc).
      + rewrite (part_tail_raise _ _ _ _ _ Ht Hc). simpl. eauto.
    - by rewrite part_tail_untracked. }
  destruct e as [m [] c|k tg c|nk nn|m tg|c n u h|]; simpl in *; try done.
  - rewrite part_other by done. apply Htail.
  - destruct (decide (IrcString.nick m = Bot.nick (UsersPlugin.bot s)))
      as [->|Hne].
    + by rewrite quit_own_nick.
    + by rewrite quit_other.
  - unfold UsersPlugin.on_kick. rewrite part_other by done. apply Htail.
  - destruct (UsersPlugin.get_user (IrcString.nick nk) s) as [a|] eqn:Hget.
    + destruct (wf_valid _ Hwf _ _ Hget) as [u Hu].
      by rewrite (on_new_nick_tracked s nk nn a u).
    + by rewrite on_new_nick_untracked.
  - destruct (decide (tg ∈ UsersPlugin.channels s)) as [Hc|Hc];
      [|by rewrite on_privmsg_absent_channel].
    destruct (UsersPlugin.get_user (IrcString.nick m) s) as [a|] eqn:Hget.
    + destruct (wf_valid _ Hwf _ _ Hget) as [w Hw].
      by rewrite (on_privmsg_known s m tg a w).
    + destruct (decide (UsersPlugin.identifying_method s = "mask")).
      * by rewrite on_privmsg_unknown.
      * rewrite on_privmsg_untracked_misconfigured by done. simpl. eauto.
  - destruct (decide (c ∈ UsersPlugin.channels s)) as [Hc|Hc];
      [|by rewrite on_who_absent_channel].
    destruct (UsersPlugin.get_user n s) as [a|] eqn:Hget.
    + destruct (wf_valid _ Hwf _ _ Hget) as [w Hw].
      by rewrite (on_who_known s c n u h a w).
    + destruct (decide (UsersPlugin.identifying_method s = "mask")).
      * by rewrite on_who_unknown.
      * rewrite on_who_untracked_misconfigured by done. simpl. eauto.
Qed.

Lemma failed_event_changes_nothing_witness :
  let e := JoinPartQuit (mask_of "alice") UsersPlugin.PART "#z" in
  wf alice_and_bob /\
  is_join e = false /\
  ~ own_part e alice_and_bob /\
  UsersPlugin.outcome (handle e) alice_and_bob <> Ok tt /\
  UsersPlugin.exec (handle e) alice_and_bob = alice_and_bob.
Proof.
  intros e.
  assert (Hwf : wf alice_and_bob)
    by exact (reachable_wf _ _ alice_and_bob_reachable).
  assert (Hown : ~ own_part e alice_and_bob) by (intros H; discriminate H).
  assert (Hbad : UsersPlugin.outcome (handle e) alice_and_bob <> Ok tt)
    by (vm_compute; discriminate).
  split; [exact Hwf|]. split; [reflexivity|]. split; [exact Hown|].
  split; [exact Hbad|].
  exact (proj1 (failed_event_changes_nothing e _ Hwf eq_refl Hown Hbad)).
Defined.

(** X13. A quit, a nick change and a lost connection never raise: in a
    well-formed state each of the three returns normally, whoever it is
    about and whether or not the nickname is tracked. *)
Theorem quit_rename_reset_never_raise
    (s : UsersPlugin.t) (mask : IrcString.t) (c new_nick : string) :
  wf s ->
  UsersPlugin.outcome (handle (JoinPartQuit mask UsersPlugin.QUIT c)) s
  = Ok tt /\
  UsersPlugin.outcome (handle (NewNick mask new_nick)) s = Ok tt /\
  UsersPlugin.outcome (handle ConnectionLost) s = Ok tt.
Proof.
  intros Hwf. unfold UsersPlugin.outcome. simpl. repeat split.
  - destruct (decide (IrcString.nick mask = Bot.nick (UsersPlugin.bot s)))
      as [->|Hne].
    + by rewrite quit_own_nick.
    + by rewrite quit_other.
  - destruct (UsersPlugin.get_user (IrcString.nick mask) s) as [a|] eqn:Hget.
    + destruct (wf_valid _ Hwf _ _ Hget) as [u Hu].
      by rewrite (on_new_nick_tracked s mask new_nick a u).
    + by rewrite on_new_nick_untracked.
Qed.

Lemma quit_rename_reset_never_raise_witness :
  wf alice_and_bob /\
  UsersPlugin.outcome (handle (NewNick (mask_of "alice") "bob")) alice_and_bob
  = Ok tt.
Proof.
  assert (Hwf : wf alice_and_bob)
    by exact (reachable_wf _ _ alice_and_bob_reachable).
  split; [exact Hwf|].
  exact (proj1 (proj2 (quit_rename_reset_never_raise _ (mask_of "alice")
                         "#a" "bob" Hwf))).
Defined.

(** ** The bot's own departure *)

(** X14. When the bot itself parts or is kicked from a channel while two
    or more users are tracked, the handler raises [KeyError] for that
    channel, whatever the channel and whoever the users are. *)
Theorem own_departure_raises_with_two_users
    (s : UsersPlugin.t) (mask : IrcString.t) (c : string) :
  wf s -> 2 <= length (UsersPlugin.active_users s) ->
  IrcString.nick mask = Bot.nick (UsersPlugin.bot s) ->
  UsersPlugin.outcome (handle (JoinPartQuit mask UsersPlugin.PART c)) s
  = Raise (KeyError c) /\
  forall kicker,
    UsersPlugin.outcome (handle (Kick kicker mask c)) s = Raise (KeyError c).
Proof.
  intros Hwf Hlen Hn. simpl. unfold UsersPlugin.on_kick. rewrite Hn.
  split; [|intros _]; by apply part_own_nick_raises_with_two_users.
Qed.

Lemma own_departure_raises_with_two_users_witness :
  wf alice_and_bob /\
  2 <= length (UsersPlugin.active_users alice_and_bob) /\
  UsersPlugin.outcome
    (handle (JoinPartQuit (mask_of "onebot") UsersPlugin.PART "#a"))
    alice_and_bob = Raise (KeyError "#a").
Proof.
  assert (Hwf : wf alice_and_bob)
    by exact (reachable_wf _ _ alice_and_bob_reachable).
  assert (Hlen : 2 <= length (UsersPlugin.active_users alice_and_bob))
    by (vm_compute; lia).
  split; [exact Hwf|]. split; [exact Hlen|].
  exact (proj1 (own_departure_raises_with_two_users _ (mask_of "onebot") "#a"
                  Hwf Hlen eq_refl)).
Defined.

Section LoneUser.
Import UsersPlugin.

(** The loop of [part] over a single tracked user in the channel. *)
Lemma part_loop_single s n a u c :
  active_users s = [(n, a)] -> objects s !! a = Some u ->
  c ∈ User.channels u -> c ∈ channels s ->
  for_each (active_users s) (part_loop_body c) s
  = (Ok tt, set_channels (channels s ∖ {[c]}) (after_user_part n a u c s)).
Proof.
  intros Hd Hobj Hcu Hcs.
  assert (Ht : tracked s n a u).
  { split; [|done]. unfold get_user. rewrite Hd. simpl. by rewrite decide_True. }
  rewrite Hd. cbn [for_each]. unfold bind.
  rewrite (part_loop_body_parted _ _ _ _ _ Ht Hcu).
  unfold channels_remove. rewrite channels_after_user_part.
  by rewrite decide_True.
Qed.
End LoneUser.

(** X15. The bot's own part with fewer than two tracked users.  With none
    the handler returns at once and the channel stays tracked.  With one,
    who is in the channel: if that was the user's only channel the handler
    returns normally with no user left and the channel untracked; if the
    user has other channels and is not the bot, it returns normally with
    the user kept and the channel untracked; if the user is the bot itself,
    in other channels too, it raises [KeyError], the channel being removed
    from the bot's own record a second time after the loop. *)
Theorem own_part_with_few_users
    (s : UsersPlugin.t) (mask : IrcString.t) (c : string) :
  let bn := Bot.nick (UsersPlugin.bot s) in
  let s' := UsersPlugin.exec (UsersPlugin.part bn mask c) s in
  let r := UsersPlugin.outcome (UsersPlugin.part bn mask c) s in
  (UsersPlugin.active_users s = [] -> r = Ok tt /\ s' = s) /\
  (forall n a u,
     UsersPlugin.active_users s = [(n, a)] ->
     UsersPlugin.objects s !! a = Some u ->
     c ∈ User.channels u -> c ∈ UsersPlugin.channels s ->
     UsersPlugin.channels s' = UsersPlugin.channels s ∖ {[c]} /\
     (User.channels u = {[c]} ->
      r = Ok tt /\ UsersPlugin.active_users s' = []) /\
     (User.channels u <> {[c]} -> n <> bn ->
      r = Ok tt /\ tracked s' n a (parted c u)) /\
     (User.channels u <> {[c]} -> n = bn -> r = Raise (KeyError c))).
Proof.
  intros bn s' r. subst s' r. unfold UsersPlugin.outcome, UsersPlugin.exec.
  split.
  { intros Hd. by rewrite part_no_users. }
  intros n a u Hd Hobj Hcu Hcs. subst bn.
  rewrite part_own. unfold UsersPlugin.bind.
  rewrite (part_loop_single s n a u c Hd Hobj Hcu Hcs).
  set (s3 := UsersPlugin.set_channels _ _).
  assert (Hch : UsersPlugin.channels (part_tail (Bot.nick (UsersPlugin.bot s)) c s3).2
                = UsersPlugin.channels s ∖ {[c]}).
  { rewrite keeps_channels_part_tail. by subst s3. }
  split; [exact Hch|].
  pose proof (still_parted_false u c Hcu) as Hstill.
  assert (Hobj3 : User.still_in_channels (parted c u) = true ->
                  tracked s3 n a (parted c u)).
  { intros E. subst s3. unfold after_user_part. rewrite E. split.
    - unfold UsersPlugin.get_user. simpl. rewrite Hd. simpl.
      by rewrite decide_True.
    - simpl. apply list_lookup_insert_eq. by apply lookup_lt_Some with u. }
  split; [|split].
  - intros Hu. apply Hstill in Hu.
    assert (Hempty : UsersPlugin.active_users s3 = []).
    { subst s3. unfold after_user_part. rewrite Hu. simpl. rewrite Hd. simpl.
      by rewrite decide_True. }
    rewrite part_tail_untracked;
      [done | unfold UsersPlugin.get_user; by rewrite Hempty].
  - intros Hu Hn.
    destruct (User.still_in_channels (parted c u)) eqn:E;
      [|exfalso; by apply Hu, Hstill].
    specialize (Hobj3 eq_refl).
    rewrite part_tail_untracked; [done|].
    subst s3. unfold after_user_part, UsersPlugin.get_user. rewrite E. simpl.
    rewrite Hd. simpl. by rewrite decide_False.
  - intros Hu ->.
    destruct (User.still_in_channels (parted c u)) eqn:E;
      [|exfalso; by apply Hu, Hstill].
    specialize (Hobj3 eq_refl).
    rewrite (part_tail_raise s3 _ c a (parted c u)); [done | | simpl; set_solver].
    replace (Bot.nick (UsersPlugin.bot s3)) with (Bot.nick (UsersPlugin.bot s));
      [done|]. subst s3. unfold after_user_part. by rewrite E.
Qed.

Lemma own_part_with_few_users_witness :
  let s := run [JoinPartQuit (mask_of "onebot") UsersPlugin.JOIN "#a";
                JoinPartQuit (mask_of "onebot") UsersPlugin.JOIN "#b"]
             (initial_state sample_bot) in
  UsersPlugin.active_users s = [("onebot", 0)] /\
  UsersPlugin.outcome (UsersPlugin.part "onebot" (mask_of "onebot") "#a") s
  = Raise (KeyError "#a").
Proof.
  intros s. split; [reflexivity|].
  set (u := User.join "#b" (User.join "#a" (sample_user "onebot" ["#a"]))).
  assert (Hobj : UsersPlugin.objects s !! 0 = Some u) by reflexivity.
  assert (Hcu : "#a" ∈ User.channels u) by (apply channel_present; reflexivity).
  assert (Hcs : "#a" ∈ UsersPlugin.channels s)
    by (apply channel_present; reflexivity).
  assert (Hne : User.channels u <> {["#a"]}).
  { intros E. assert (Hb : "#b" ∈ User.channels u)
      by (apply channel_present; reflexivity).
    rewrite E in Hb. apply elem_of_singleton in Hb. discriminate Hb. }
  destruct (own_part_with_few_users s (mask_of "onebot") "#a") as [_ H].
  destruct (H "onebot" 0 u eq_refl Hobj Hcu Hcs) as (_ & _ & _ & Hraise).
  exact (Hraise Hne eq_refl).
Defined.

(** ** Invariants of the registry *)

(** X16. As long as no handler has raised, every channel in the record of
    a tracked user is a channel the registry tracks.  From such a state
    every event keeps this, also when its handler raises, with one
    exception: the bot's own part or kick keeps it only when it returns
    normally. *)
Theorem containment_while_no_handler_raises
    (b : Bot.t) (s : UsersPlugin.t) :
  reachable_quietly b s ->
  channel_containment s /\
  forall e,
    UsersPlugin.outcome (handle e) s = Ok tt \/ ~ own_part e s ->
    channel_containment (UsersPlugin.exec (handle e) s).
Proof.
  intros Hs.
  assert (Hinv : channel_containment s)
    by (by apply reachable_quietly_containment with b).
  split; [exact Hinv|]. intros e He.
  apply handle_containment; [|done..].
  by apply (reachable_wf b), reachable_quietly_reachable.
Qed.

Lemma containment_while_no_handler_raises_witness :
  reachable_quietly sample_bot (initial_state sample_bot) /\
  channel_containment
    (UsersPlugin.exec
       (handle (JoinPartQuit (mask_of "alice") UsersPlugin.JOIN "#a"))
       (initial_state sample_bot)).
Proof.
  assert (H : reachable_quietly sample_bot (initial_state sample_bot))
    by (constructor; reflexivity).
  split; [exact H|].
  apply (proj2 (containment_while_no_handler_raises _ _ H)).
  left. reflexivity.
Defined.

(** X17. In every state the events can reach, also through handlers that
    raised, the dictionary has no nickname twice, no two nicknames lead to
    one record, and every nickname leads to a record; and no handler run
    from such a state follows a reference that leads nowhere. *)
Theorem reachable_states_are_well_formed (b : Bot.t) (s : UsersPlugin.t) :
  reachable b s ->
  NoDup (Dict.keys (UsersPlugin.active_users s)) /\
  (forall n1 n2 a,
     UsersPlugin.get_user n1 s = Some a -> UsersPlugin.get_user n2 s = Some a ->
     n1 = n2) /\
  (forall n a, UsersPlugin.get_user n s = Some a ->
               exists u, tracked s n a u) /\
  forall e, UsersPlugin.outcome (handle e) s <> Stuck.
Proof.
  intros Hs. pose proof (reachable_wf b s Hs) as Hwf.
  split; [apply Hwf|]. split; [apply Hwf|]. split.
  - intros n a Hget. destruct (wf_valid _ Hwf _ _ Hget) as [u Hu].
    by exists u.
  - intros e. by apply handle_safe.
Qed.

Lemma reachable_states_are_well_formed_witness :
  reachable sample_bot alice_and_bob /\
  NoDup (Dict.keys (UsersPlugin.active_users alice_and_bob)).
Proof.
  split; [exact alice_and_bob_reachable|].
  exact (proj1 (reachable_states_are_well_formed _ _ alice_and_bob_reachable)).
Defined.

(** ** How events compose *)

Section Compose.
Import UsersPlugin.

Lemma dict_remove_set_fresh {V} (d : Dict.t V) k v :
  Dict.get k d = None -> Dict.remove k (Dict.set k v d) = d.
Proof.
  induction d as [|[k' v'] d IH]; simpl.
  - intros _. by rewrite decide_True.
  - destruct (decide (k' = k)) as [->|Hne]; [done|]. intros H. simpl.
    rewrite decide_False by done. by rewrite IH.
Qed.

Lemma user_join_present u c :
  c ∈ User.channels u -> User.join c u = u.
Proof.
  intros Hc. destruct u as [n h cs i db]. unfold User.join, User.set_channels.
  simpl in *. f_equal. set_solver.
Qed.

Lemma set_objects_same s : set_objects (objects s) s = s.
Proof. by destruct s. Qed.

(** A WHO reply or a message about a user already recorded in that channel
    changes nothing. *)
Lemma on_who_present s c n username server a u :
  c ∈ channels s -> tracked s n a u -> c ∈ User.channels u ->
  on_who c n username server s = (Ok tt, s).
Proof.
  intros Hc Ht Hcu. rewrite (on_who_known s c n username server a u Hc Ht).
  rewrite user_join_present by done.
  rewrite list_insert_id by apply Ht. by rewrite set_objects_same.
Qed.

Lemma on_privmsg_present s mask c a u :
  c ∈ channels s -> tracked s (IrcString.nick mask) a u ->
  c ∈ User.channels u ->
  on_privmsg mask c s = (Ok tt, s).
Proof.
  intros Hc Ht Hcu. rewrite (on_privmsg_known s mask c a u Hc Ht).
  rewrite user_join_present by done.
  rewrite list_insert_id by apply Ht. by rewrite set_objects_same.
Qed.
End Compose.

(** X18. A nickname that joins and then parts the same channel, with no
    event in between, leaves the dictionary of users exactly as it was
    before the join when it was not tracked then: both handlers return
    normally, the nickname is not found afterwards, and every other
    nickname leads where it led.  The channel stays tracked. *)
Theorem join_then_part_forgets
    (s : UsersPlugin.t) (n : string) (mask : IrcString.t) (c : string) :
  wf s -> UsersPlugin.identifying_method s = "mask" ->
  n <> Bot.nick (UsersPlugin.bot s) -> UsersPlugin.get_user n s = None ->
  let s1 := UsersPlugin.exec (UsersPlugin.join n mask c) s in
  let s2 := UsersPlugin.exec (UsersPlugin.part n mask c) s1 in
  UsersPlugin.outcome (UsersPlugin.join n mask c) s = Ok tt /\
  UsersPlugin.outcome (UsersPlugin.part n mask c) s1 = Ok tt /\
  UsersPlugin.active_users s2 = UsersPlugin.active_users s /\
  UsersPlugin.get_user n s2 = None /\
  UsersPlugin.channels s2 = UsersPlugin.channels s ∪ {[c]}.
Proof.
  intros Hwf Hm Hne Hget s1 s2. subst s2 s1.
  unfold UsersPlugin.outcome, UsersPlugin.exec.
  rewrite (join_untracked s n mask c Hget Hm). simpl.
  set (u := User.join c _). set (s1 := UsersPlugin.mk _ _ _ _ _).
  assert (Ht1 : tracked s1 n (length (UsersPlugin.objects s)) u).
  { split; [apply dict_get_set_eq | by apply list_lookup_middle]. }
  assert (Hu : User.channels u = {[c]}) by (simpl; set_solver).
  assert (Hcu : c ∈ User.channels u) by (rewrite Hu; set_solver).
  rewrite (part_other_ok s1 n mask c _ u Hne Ht1 Hcu). simpl.
  unfold after_user_part.
  rewrite (proj2 (still_parted_false u c Hcu) Hu). simpl.
  rewrite dict_remove_set_fresh by done.
  split; [done|]. split; [done|]. split; [done|]. split; [exact Hget | done].
Qed.

Lemma join_then_part_forgets_witness :
  wf alice_and_bob /\
  UsersPlugin.identifying_method alice_and_bob = "mask" /\
  "carol" <> Bot.nick (UsersPlugin.bot alice_and_bob) /\
  UsersPlugin.get_user "carol" alice_and_bob = None /\
  UsersPlugin.active_users
    (UsersPlugin.exec (UsersPlugin.part "carol" (mask_of "carol") "#c")
       (UsersPlugin.exec (UsersPlugin.join "carol" (mask_of "carol") "#c")
          alice_and_bob))
  = UsersPlugin.active_users alice_and_bob.
Proof.
  assert (Hwf : wf alice_and_bob)
    by exact (reachable_wf _ _ alice_and_bob_reachable).
  assert (Hm : UsersPlugin.identifying_method alice_and_bob = "mask")
    by reflexivity.
  assert (Hne : "carol" <> Bot.nick (UsersPlugin.bot alice_and_bob))
    by discriminate.
  assert (Hget : UsersPlugin.get_user "carol" alice_and_bob = None)
    by reflexivity.
  split; [exact Hwf|]. split; [exact Hm|]. split; [exact Hne|].
  split; [exact Hget|].
  exact (proj1 (proj2 (proj2
    (join_then_part_forgets _ "carol" (mask_of "carol") "#c"
       Hwf Hm Hne Hget)))).
Defined.

(** X19. Renaming a tracked user to a free nickname and back again
    restores the registry a reader sees: both handlers return normally,
    every nickname leads where it led before, and the records and the
    tracked channels are exactly those before the first rename. *)
Theorem rename_there_and_back
    (b : Bot.t) (s : UsersPlugin.t) (old new : string) (host1 host2 : string)
    (a : UsersPlugin.addr) (u : User.t) :
  reachable b s -> tracked s old a u -> UsersPlugin.get_user new s = None ->
  let there := UsersPlugin.on_new_nick (IrcString.mk old host1) new in
  let back := UsersPlugin.on_new_nick (IrcString.mk new host2) old in
  let s1 := UsersPlugin.exec there s in
  let s2 := UsersPlugin.exec back s1 in
  UsersPlugin.outcome there s = Ok tt /\
  UsersPlugin.outcome back s1 = Ok tt /\
  (forall k, UsersPlugin.get_user k s2 = UsersPlugin.get_user k s) /\
  UsersPlugin.objects s2 = UsersPlugin.objects s /\
  UsersPlugin.channels s2 = UsersPlugin.channels s.
Proof.
  intros Hs Ht Hnew there back s1 s2. subst s2 s1 there back.
  unfold UsersPlugin.outcome, UsersPlugin.exec.
  assert (Hnick : User.nick u = old)
    by (by apply (reachable_nick_key b s old a u)).
  assert (Hne : old <> new).
  { intros ->. destruct Ht as [Hget _]. congruence. }
  rewrite (on_new_nick_tracked s (IrcString.mk old host1) new a u Ht). simpl.
  set (s1 := UsersPlugin.set_active_users _ _).
  assert (Ht1 : tracked s1 new a (User.set_nick new u)).
  { split.
    - unfold UsersPlugin.get_user. simpl.
      rewrite dict_get_remove_ne by done. apply dict_get_set_eq.
    - simpl. apply list_lookup_insert_eq.
      destruct Ht as [_ Hobj]. by apply lookup_lt_Some with u. }
  rewrite (on_new_nick_tracked s1 (IrcString.mk new host2) old a _ Ht1). simpl.
  split; [done|]. split; [done|]. split; [|split; [|done]].
  - intros k. destruct Ht as [Hgo _].
    unfold UsersPlugin.get_user in *. simpl.
    destruct (decide (k = new)) as [->|Hkn].
    + rewrite dict_get_remove_eq. by rewrite Hnew.
    + rewrite dict_get_remove_ne by done.
      destruct (decide (k = old)) as [->|Hko].
      * rewrite dict_get_set_eq. by rewrite Hgo.
      * rewrite dict_get_set_ne by done.
        rewrite dict_get_remove_ne by done. by rewrite dict_get_set_ne.
  - rewrite list_insert_insert_eq. apply list_insert_id.
    destruct Ht as [_ Hobj]. etrans; [exact Hobj|]. f_equal.
    destruct u as [n h cs i db]. simpl in *. by subst.
Qed.

Lemma rename_there_and_back_witness :
  reachable sample_bot alice_and_bob /\
  tracked alice_and_bob "alice" 0 alice_record /\
  UsersPlugin.get_user "carol" alice_and_bob = None /\
  UsersPlugin.objects
    (UsersPlugin.exec (UsersPlugin.on_new_nick (IrcString.mk "carol" "h") "alice")
       (UsersPlugin.exec
          (UsersPlugin.on_new_nick (IrcString.mk "alice" "h") "carol")
          alice_and_bob))
  = UsersPlugin.objects alice_and_bob.
Proof.
  assert (Hget : UsersPlugin.get_user "carol" alice_and_bob = None)
    by reflexivity.
  split; [exact alice_and_bob_reachable|]. split; [exact alice_tracked|].
  split; [exact Hget|].
  exact (proj1 (proj2 (proj2 (proj2
    (rename_there_and_back _ _ "alice" "carol" "h" "h" _ _
       alice_and_bob_reachable alice_tracked Hget))))).
Defined.

(** X20. Discovery is idempotent: with the supported strategy, handling
    the same WHO reply, or the same channel message, a second time returns
    normally and leaves the state the first left, whether or not the
    nickname was known before the first. *)
Theorem discovery_is_idempotent
    (s : UsersPlugin.t) (mask : IrcString.t)
    (channel nick username server : string) :
  wf s -> UsersPlugin.identifying_method s = "mask" ->
  let who := UsersPlugin.on_who channel nick username server in
  let msg := UsersPlugin.on_privmsg mask channel in
  who (UsersPlugin.exec who s) = (Ok tt, UsersPlugin.exec who s) /\
  msg (UsersPlugin.exec msg s) = (Ok tt, UsersPlugin.exec msg s).
Proof.
  intros Hwf Hm who msg. subst who msg. unfold UsersPlugin.exec.
  destruct (decide (channel ∈ UsersPlugin.channels s)) as [Hc|Hc].
  2:{ rewrite !(on_who_absent_channel s), !(on_privmsg_absent_channel s)
        by done.
      done. }
  split.
  - destruct (UsersPlugin.get_user nick s) as [a|] eqn:Hget.
    + destruct (wf_valid _ Hwf _ _ Hget) as [u Hu].
      assert (Ht : tracked s nick a u) by done.
      rewrite (on_who_known s channel nick username server a u Hc Ht). simpl.
      apply on_who_present with a (User.join channel u);
        [done | by apply tracked_updated with u | simpl; set_solver].
    + rewrite !(on_who_unknown s) by done. simpl.
      eapply on_who_present; [done | apply tracked_new_user |].
      simpl. set_solver.
  - destruct (UsersPlugin.get_user (IrcString.nick mask) s) as [a|] eqn:Hget.
    + destruct (wf_valid _ Hwf _ _ Hget) as [u Hu].
      assert (Ht : tracked s (IrcString.nick mask) a u) by done.
      rewrite (on_privmsg_known s mask channel a u Hc Ht). simpl.
      apply on_privmsg_present with a (User.join channel u);
        [done | by apply tracked_updated with u | simpl; set_solver].
    + rewrite !(on_privmsg_unknown s) by done. simpl.
      eapply on_privmsg_present; [done | apply tracked_new_user |].
      simpl. set_solver.
Qed.

Lemma discovery_is_idempotent_witness :
  wf alice_and_bob /\
  UsersPlugin.identifying_method alice_and_bob = "mask" /\
  UsersPlugin.on_who "#b" "carol" "u" "host"
    (UsersPlugin.exec (UsersPlugin.on_who "#b" "carol" "u" "host")
       alice_and_bob)
  = (Ok tt,
     UsersPlugin.exec (UsersPlugin.on_who "#b" "carol" "u" "host")
       alice_and_bob).
Proof.
  assert (Hwf : wf alice_and_bob)
    by exact (reachable_wf _ _ alice_and_bob_reachable).
  assert (Hm : UsersPlugin.identifying_method alice_and_bob = "mask")
    by reflexivity.
  split; [exact Hwf|]. split; [exact Hm|].
  exact (proj1 (discovery_is_idempotent _ (mask_of "carol")
                  "#b" "carol" "u" "host" Hwf Hm)).
Defined.

(** X21. Events about a nickname the registry does not track, other than
    the bot's own, are ignored: a part, a kick, a quit and a nick change
    each return normally and leave the state exactly as it was. *)
Theorem unknown_nick_is_ignored
    (s : UsersPlugin.t) (mask kicker : IrcString.t) (c new_nick : string) :
  UsersPlugin.get_user (IrcString.nick mask) s = None ->
  IrcString.nick mask <> Bot.nick (UsersPlugin.bot s) ->
  handle (JoinPartQuit mask UsersPlugin.PART c) s = (Ok tt, s) /\
  handle (Kick kicker mask c) s = (Ok tt, s) /\
  handle (JoinPartQuit mask UsersPlugin.QUIT c) s = (Ok tt, s) /\
  handle (NewNick mask new_nick) s = (Ok tt, s).
Proof.
  intros Hget Hne. simpl. unfold UsersPlugin.on_kick.
  rewrite part_other, part_tail_untracked by done.
  rewrite quit_other, on_new_nick_untracked by done.
  unfold UsersPlugin.get_user in Hget.
  by rewrite (dict_contains_false _ _ Hget).
Qed.

Lemma unknown_nick_is_ignored_witness :
  UsersPlugin.get_user "carol" alice_and_bob = None /\
  "carol" <> Bot.nick (UsersPlugin.bot alice_and_bob) /\
  handle (Kick (mask_of "alice") (mask_of "carol") "#a") alice_and_bob
  = (Ok tt, alice_and_bob).
Proof.
  assert (Hget : UsersPlugin.get_user (IrcString.nick (mask_of "carol"))
                   alice_and_bob = None) by reflexivity.
  assert (Hne : IrcString.nick (mask_of "carol")
                <> Bot.nick (UsersPlugin.bot alice_and_bob)) by discriminate.
  split; [exact Hget|]. split; [exact Hne|].
  exact (proj1 (proj2 (unknown_nick_is_ignored _ (mask_of "carol")
                         (mask_of "alice") "#a" "dave" Hget Hne))).
Defined.

(** ** The record of one user *)

Lemma foldl_add_channels (chans : list string) (acc : gset string) (c : string) :
  c ∈ foldl (fun s x => s ∪ {[x]}) acc chans <-> c ∈ acc \/ c ∈ chans.
Proof.
  revert acc. induction chans as [|x chans IH]; intros acc; simpl.
  - rewrite elem_of_nil. tauto.
  - rewrite IH, elem_of_union, elem_of_singleton, elem_of_cons. tauto.
Qed.

(** X22. A user built from a list of channels is in exactly the channels
    of the list, however often each is listed, and keeps the nick and host
    of the mask and the identity key and settings store handed over; the
    user is in some channel exactly when the list is not empty. *)
Theorem user_init_channels
    (mask : IrcString.t) (chans : list string) (id_ : string) (db : Database) :
  let u := User.init mask chans id_ db in
  (forall c, c ∈ User.channels u <-> c ∈ chans) /\
  (User.still_in_channels u = true <-> chans <> []) /\
  User.mask u = mask /\ User.getid u = id_ /\ User.database u = db.
Proof.
  intros u. subst u.
  assert (Hin : forall c,
            c ∈ User.channels (User.init mask chans id_ db) <-> c ∈ chans).
  { intros c. simpl. rewrite foldl_add_channels.
    split; [intros [H|H]; [by apply not_elem_of_empty in H | done] | by right]. }
  split; [exact Hin|]. split; [|by destruct mask].
  split.
  - intros H. apply bool_decide_eq_true_1, size_pos_elem_of in H as [c Hc].
    apply Hin in Hc. intros ->. by apply elem_of_nil in Hc.
  - intros Hne. destruct chans as [|c chans]; [done|].
    apply still_in_channels_elem with c. apply Hin. left.
Qed.

(** X23. Joining and parting on one record.  Parting a channel the record
    lists succeeds, and joining it again gives the record back; joining a
    channel the record does not list and parting it gives the record back;
    parting raises [KeyError] exactly when the channel is not listed; and
    after a join the user is in some channel. *)
Theorem user_join_part_round_trip (u : User.t) (c : string) :
  (c ∈ User.channels u ->
   User.part c u = Ok (parted c u) /\ User.join c (parted c u) = u) /\
  (c ∉ User.channels u -> User.part c (User.join c u) = Ok u) /\
  (User.part c u = Raise (KeyError c) <-> c ∉ User.channels u) /\
  User.still_in_channels (User.join c u) = true.
Proof.
  destruct u as [n h cs i db]. unfold User.part, User.join, parted,
    User.set_channels. simpl. repeat split.
  - by rewrite decide_True.
  - f_equal. apply set_eq. intros x.
    rewrite elem_of_union, elem_of_difference, elem_of_singleton.
    destruct (decide (x = c)) as [->|]; tauto.
  - intros Hc. rewrite decide_True by set_solver. do 2 f_equal.
    apply set_eq. intros x.
    rewrite elem_of_difference, elem_of_union, elem_of_singleton.
    destruct (decide (x = c)) as [->|]; tauto.
  - destruct (decide (c ∈ cs)); [discriminate | done].
  - intros Hc. by rewrite decide_False.
  - apply still_in_channels_elem with c. simpl. set_solver.
Qed.

Lemma user_join_part_round_trip_witness :
  ("#z" ∉ User.channels alice_record) /\
  User.part "#z" (User.join "#z" alice_record) = Ok alice_record.
Proof.
  assert (H : "#z" ∉ User.channels alice_record)
    by (apply channel_absent; reflexivity).
  split; [exact H|].
  exact (proj1 (proj2 (user_join_part_round_trip alice_record "#z")) H).
Defined.
